(** * Resumable book-generation controller: a shallow embedding

    Source: [scripts/generate_books_with_ollama.py].

    The script drives a remote text-generation service chapter by chapter,
    keeps a per-book state document on disk and finishes each book with a
    metadata document.  Everything outside the process (the service, the
    wall clock, the health probe) is an oracle stored in the [World]; the
    files the script writes and the order of its outward actions are the
    mutable part of the [World].  Python exceptions are values of [Exc]
    and every effectful function lives in the state-and-exception monad
    [M].

    Modelling conventions.
    - [str] is [string]; a character is a code point below 256.
    - [int] is [Z]; [len] and [count_words] results are [nat].
    - The sampling temperature is the rational its literal denotes.
    - [log] only prints; it is left out of the model.
    - Failures of the local file system are not modelled. *)

From Stdlib Require Import ZArith List String Ascii Bool Lia QArith DecimalString.
Import ListNotations.
Close Scope Q_scope.
Local Open Scope string_scope.

Set Warnings "-register-all".

(** ** Text primitives: the [str] and [re] operations the script uses *)

Module Text.

Definition code (c : ascii) : N := N_of_ascii c.

Definition in_range (lo hi : N) (c : ascii) : bool :=
  ((lo <=? code c) && (code c <=? hi))%N.

(** One character of [WORD_RE = [A-Za-z0-9']+]. *)
Definition is_word_char (c : ascii) : bool :=
  in_range 65 90 c || in_range 97 122 c || in_range 48 57 c
  || (code c =? 39)%N.

(** [str.isspace] for one code point below 256. *)
Definition is_space (c : ascii) : bool :=
  in_range 9 13 c || in_range 28 32 c
  || (code c =? 133)%N || (code c =? 160)%N.

Definition lower_char (c : ascii) : ascii :=
  if in_range 65 90 c || (in_range 192 222 c && negb (code c =? 215)%N)
  then ascii_of_N (code c + 32)
  else c.

(** [s.lower()] *)
Fixpoint lower (s : string) : string :=
  match s with
  | EmptyString => EmptyString
  | String c r => String (lower_char c) (lower r)
  end.

(** [s.lstrip(chars)], the set of characters given as a predicate. *)
Fixpoint lstrip_by (p : ascii -> bool) (s : string) : string :=
  match s with
  | EmptyString => EmptyString
  | String c r => if p c then lstrip_by p r else s
  end.

(** [s.rstrip(chars)] *)
Fixpoint rstrip_by (p : ascii -> bool) (s : string) : string :=
  match s with
  | EmptyString => EmptyString
  | String c r =>
      match rstrip_by p r with
      | EmptyString => if p c then EmptyString else String c EmptyString
      | r' => String c r'
      end
  end.

Definition strip_by (p : ascii -> bool) (s : string) : string :=
  lstrip_by p (rstrip_by p s).

(** [s.strip()] *)
Definition strip (s : string) : string := strip_by is_space s.

(** [s.startswith(p)] *)
Definition startswith (p s : string) : bool := String.prefix p s.

(** [sep.join(parts)] *)
Definition join (sep : string) (parts : list string) : string :=
  String.concat sep parts.

(** [s[:n]] *)
Definition take (n : nat) (s : string) : string := substring 0 n s.

(** [xs[-n:]] for a positive [n]: the last [n] elements, or all of them. *)
Definition lastn {A} (n : nat) (xs : list A) : list A :=
  skipn (List.length xs - n) xs.

(** [str(i)] for an [int]. *)
Definition str_of_Z (z : Z) : string := NilZero.string_of_int (Z.to_int z).

Definition str_of_nat (n : nat) : string := str_of_Z (Z.of_nat n).

(** Number of matches of [WORD_RE.findall]: the maximal runs of word
    characters.  [inw] tells whether the previous character was one. *)
Fixpoint count_from (inw : bool) (s : string) : nat :=
  match s with
  | EmptyString => 0
  | String c r =>
      if is_word_char c
      then (if inw then 0 else 1) + count_from true r
      else count_from false r
  end.

(** [s.replace("{N}", new)]: occurrences are replaced left to right and do
    not overlap. *)
Fixpoint replace_N (new s : string) : string :=
  match s with
  | EmptyString => EmptyString
  | String c1 r1 =>
      match r1 with
      | String c2 (String c3 r3) =>
          if ((c1 =? "{") && (c2 =? "N") && (c3 =? "}"))%char
          then new ++ replace_N new r3
          else String c1 (replace_N new r1)
      | _ => String c1 (replace_N new r1)
      end
  end.

Definition is_slug_char (c : ascii) : bool :=
  in_range 97 122 c || in_range 48 57 c.

(** [re.sub(r"[^a-z0-9]+", "_", s)]: each maximal run of other characters
    becomes one underscore.  [inrun] tells whether such a run is open. *)
Fixpoint squash (inrun : bool) (s : string) : string :=
  match s with
  | EmptyString => EmptyString
  | String c r =>
      if is_slug_char c then String c (squash false r)
      else if inrun then squash true r
      else String "_" (squash true r)
  end.

End Text.

Import Text.

(** [count_words] *)
Definition count_words (text : string) : nat := count_from false text.

(** ** Data model *)

(** [BookSpec] *)
Record BookSpec := {
  genre : string;
  title : string;
  premise : string;
  tone : string;
  chapter_plans : list string
}.

(** A [pathlib.Path] below the output directory. *)
Record Path := { dir : string; name : string }.

(** The state document of one book (the [state] dict). *)
Record State := {
  st_title : string;
  st_genre : string;
  st_chapters : list string;
  st_summaries : list string;
  st_memory : string;
  st_created_at : string;
  st_updated_at : option string;
  st_word_count : option nat
}.

(** The metadata document of one book (the [metadata] dict). *)
Record Metadata := {
  m_title : string;
  m_genre : string;
  m_model : string;
  m_endpoint : string;
  m_total_words : nat;
  m_chapters : nat;
  m_target_min_words : Z;
  m_generated_at : string;
  m_state_file : Path;
  m_chapter_summaries : list string
}.

(** The three files of one book: [slug.state.json], [slug.txt] and
    [slug.meta.json].  A slug has no dot, so the files of two slugs never
    coincide and each file keeps its own type of content. *)
Record BookFiles := {
  f_state : option State;
  f_book : option string;
  f_meta : option Metadata
}.

Definition no_files : BookFiles :=
  {| f_state := None; f_book := None; f_meta := None |}.

(** The body of a generation request.  The constant entries
    [stream = False], [top_p = 0.9] and [num_predict = 4096] are left out. *)
Record Payload := {
  p_model : string;
  p_system : string;
  p_prompt : string;
  p_temperature : Q;
  p_seed : option Z
}.

(** ** Exceptions *)

Inductive ExcClass :=
| URLError | TimeoutError | JSONDecodeError | RuntimeError
| OtherException        (* any other subclass of [Exception] *)
| KeyboardInterrupt.    (* a [BaseException] that is no [Exception] *)

(** An exception: its class as the [except] clauses see it, [str(exc)] and
    the [__cause__] set by [raise ... from]. *)
Inductive Exc := MkExc (cls : ExcClass) (msg : string) (cause : option Exc).

Definition exc_class (e : Exc) : ExcClass := let 'MkExc c _ _ := e in c.
Definition exc_msg (e : Exc) : string := let 'MkExc _ m _ := e in m.
Definition exc_cause (e : Exc) : option Exc := let 'MkExc _ _ c := e in c.

(** [except Exception] *)
Definition is_exception (e : Exc) : bool :=
  match exc_class e with KeyboardInterrupt => false | _ => true end.

(** [except (error.URLError, TimeoutError, json.JSONDecodeError, RuntimeError)] *)
Definition is_transient (e : Exc) : bool :=
  match exc_class e with
  | URLError | TimeoutError | JSONDecodeError | RuntimeError => true
  | _ => false
  end.

(** ** The world *)

(** What one POST yields: [PostBody s] when the body decodes to a dict [data]
    with [str(data.get("response", "")) = s], [PostRaise e] when sending,
    reading or decoding raises [e]. *)
Inductive PostResult := PostBody (s : string) | PostRaise (e : Exc).

(** What the health probe yields: a status code or an exception. *)
Inductive HealthResult := HealthStatus (status : Z) | HealthRaise (e : Exc).

(** The outward actions of the script, in the order they happen. *)
Inductive Event :=
| EvPost (url : string) (payload : Payload) (timeout : Z)
| EvSleep (secs : Z)
| EvHealth (url : string) (timeout : Z)
| EvWriteState (d slug : string) (st : State)
| EvWriteBook (d slug : string) (text : string)
| EvWriteMeta (d slug : string) (m : Metadata).

(** [service n url payload timeout] is the outcome of the POST issued after
    [n] earlier ones, [clock n] the reading of [datetime.now().isoformat()]
    after [n] earlier readings, [health] the outcome of the probe.  [files]
    maps an output directory and a slug to the book's files. *)
Record World := {
  service : nat -> string -> Payload -> Z -> PostResult;
  clock : nat -> string;
  health : string -> Z -> HealthResult;
  files : string -> string -> BookFiles;
  trace : list Event;
  posts : nat;
  ticks : nat
}.

Definition emit (ev : Event) (w : World) : World :=
  {| service := service w; clock := clock w; health := health w;
     files := files w; trace := (trace w ++ [ev])%list;
     posts := posts w; ticks := ticks w |}.

Definition count_post (w : World) : World :=
  {| service := service w; clock := clock w; health := health w;
     files := files w; trace := trace w;
     posts := S (posts w); ticks := ticks w |}.

Definition count_tick (w : World) : World :=
  {| service := service w; clock := clock w; health := health w;
     files := files w; trace := trace w;
     posts := posts w; ticks := S (ticks w) |}.

Definition set_files (d slug : string) (bf : BookFiles) (w : World) : World :=
  {| service := service w; clock := clock w; health := health w;
     files := fun d' s' =>
       if ((d' =? d) && (s' =? slug))%string then bf else files w d' s';
     trace := trace w; posts := posts w; ticks := ticks w |}.

(** ** The monad: state passing with exceptions *)

Inductive Outcome (A : Type) :=
| Ok (a : A)
| Raise (e : Exc)
| OutOfFuel.      (* a loop of the model ran out of its step budget *)

Arguments Ok {A} a.
Arguments Raise {A} e.
Arguments OutOfFuel {A}.

Definition M (A : Type) : Type := World -> Outcome A * World.

Definition ret {A} (a : A) : M A := fun w => (Ok a, w).

Definition raise {A} (e : Exc) : M A := fun w => (Raise e, w).

Definition out_of_fuel {A} : M A := fun w => (OutOfFuel, w).

Definition bind {A B} (m : M A) (k : A -> M B) : M B :=
  fun w =>
    match m w with
    | (Ok a, w1) => k a w1
    | (Raise e, w1) => (Raise e, w1)
    | (OutOfFuel, w1) => (OutOfFuel, w1)
    end.

(** [try: m  except <classes> as exc: handler exc] *)
Definition try_except {A} (m : M A) (catches : Exc -> bool)
    (handler : Exc -> M A) : M A :=
  fun w =>
    match m w with
    | (Raise e, w1) => if catches e then handler e w1 else (Raise e, w1)
    | r => r
    end.

Declare Scope monad_scope.
Delimit Scope monad_scope with monad.
Notation "x <- m ;; k" := (bind m (fun x => k))
  (at level 100, m at next level, right associativity) : monad_scope.
Notation "m ;;; k" := (bind m (fun _ => k))
  (at level 100, right associativity) : monad_scope.
Local Open Scope monad_scope.

(** ** Primitive effects *)

(** [post_json]: one POST; its outcome is the service's. *)
Definition post_json (url : string) (payload : Payload) (timeout_sec : Z)
    : M string :=
  fun w =>
    let w1 := count_post (emit (EvPost url payload timeout_sec) w) in
    match service w (posts w) url payload timeout_sec with
    | PostBody s => (Ok s, w1)
    | PostRaise e => (Raise e, w1)
    end.

(** [time.sleep] *)
Definition sleep (secs : Z) : M unit := fun w => (Ok tt, emit (EvSleep secs) w).

(** [datetime.now().isoformat()] *)
Definition now_iso : M string :=
  fun w => (Ok (clock w (ticks w)), count_tick w).

(** [read_state]: [None] when the file does not exist. *)
Definition read_state (d slug : string) : M (option State) :=
  fun w => (Ok (f_state (files w d slug)), w).

(** [write_state]: the document is written to a temporary file that then
    replaces the state file, so the state file changes in one step. *)
Definition write_state (d slug : string) (st : State) : M unit :=
  fun w =>
    let bf := files w d slug in
    (Ok tt,
     set_files d slug
       {| f_state := Some st; f_book := f_book bf; f_meta := f_meta bf |}
       (emit (EvWriteState d slug st) w)).

(** [book_path.write_text(manuscript)] *)
Definition write_book (d slug : string) (text : string) : M unit :=
  fun w =>
    let bf := files w d slug in
    (Ok tt,
     set_files d slug
       {| f_state := f_state bf; f_book := Some text; f_meta := f_meta bf |}
       (emit (EvWriteBook d slug text) w)).

(** [meta_path.write_text(json.dumps(metadata))] *)
Definition write_meta (d slug : string) (m : Metadata) : M unit :=
  fun w =>
    let bf := files w d slug in
    (Ok tt,
     set_files d slug
       {| f_state := f_state bf; f_book := f_book bf; f_meta := Some m |}
       (emit (EvWriteMeta d slug m) w)).

(** ** Transport layer *)

Definition empty_response : Exc :=
  MkExc RuntimeError "empty response from Ollama" None.

Definition generation_failed (attempt : Z) (exc : Exc) : Exc :=
  MkExc RuntimeError
    ("Ollama generation failed after " ++ str_of_Z attempt ++ " attempts: "
       ++ exc_msg exc)
    (Some exc).

(** The [while True] loop of [ollama_generate].  [attempt] is the value of
    the counter on entry to the iteration; [fuel] bounds the iterations. *)
Fixpoint generate_loop (fuel : nat) (url : string) (payload : Payload)
    (timeout_sec retries attempt : Z) : M string :=
  match fuel with
  | O => out_of_fuel
  | S fuel' =>
      let attempt := (attempt + 1)%Z in
      try_except
        (data <- post_json url payload timeout_sec ;;
         let response := strip data in
         if (response =? "")%string then raise empty_response
         else ret response)
        is_transient
        (fun exc =>
           if (attempt >=? retries)%Z then raise (generation_failed attempt exc)
           else
             let sleep_s := (attempt * 2)%Z in
             sleep sleep_s ;;;
             generate_loop fuel' url payload timeout_sec retries attempt)
  end.

Definition generate_url (endpoint : string) : string :=
  rstrip_by (fun c => (c =? "/")%char) endpoint ++ "/api/generate".

(** [ollama_generate].  The loop runs [max 1 retries] times at most. *)
Definition ollama_generate (endpoint model system prompt : string)
    (timeout_sec : Z) (temperature : Q) (seed : option Z) (retries : Z)
    : M string :=
  let url := generate_url endpoint in
  let payload :=
    {| p_model := model; p_system := system; p_prompt := prompt;
       p_temperature := temperature; p_seed := seed |} in
  generate_loop (Z.to_nat (Z.max 1 retries)) url payload timeout_sec retries 0.

(** The default of the [retries] parameter; no caller overrides it. *)
Definition default_retries : Z := 3.

Definition health_url (endpoint : string) : string :=
  rstrip_by (fun c => (c =? "/")%char) endpoint ++ "/api/tags".

Definition unreachable (url : string) (exc : Exc) : Exc :=
  MkExc RuntimeError
    ("Cannot reach Ollama at " ++ url
       ++ ". Ensure service is running (e.g. `brew services start ollama`). Error: "
       ++ exc_msg exc)
    (Some exc).

(** [check_ollama] *)
Definition check_ollama (endpoint : string) (timeout_sec : Z) : M unit :=
  let url := health_url endpoint in
  try_except
    (fun w =>
       let w1 := emit (EvHealth url timeout_sec) w in
       match health w url timeout_sec with
       | HealthStatus status =>
           if ((status <? 200) || (status >=? 300))%Z
           then (Raise (MkExc RuntimeError
                          ("unexpected status: " ++ str_of_Z status) None), w1)
           else (Ok tt, w1)
       | HealthRaise e => (Raise e, w1)
       end)
    is_exception
    (fun exc => raise (unreachable url exc)).

(** ** Continuity memory engine *)

Definition summarize_system : string :=
  "You summarize fiction chapters for continuity tracking. "
  ++ "Output plain text, max 140 words, focused on plot events, character state, and unresolved threads.".

Definition nl : string := String "010" EmptyString.

Definition summarize_prompt (chapter_text : string) : string :=
  "Summarize this chapter for continuity memory." ++ nl
  ++ "- Keep concrete facts." ++ nl
  ++ "- Mention names, locations, stakes, and unresolved tensions." ++ nl ++ nl
  ++ "CHAPTER TEXT:" ++ nl
  ++ take (12 * 1000) chapter_text.

(** [summarize_chapter] *)
Definition summarize_chapter (endpoint model chapter_text : string)
    (timeout_sec : Z) (seed : option Z) : M string :=
  ollama_generate endpoint model summarize_system
    (summarize_prompt chapter_text) timeout_sec (2 # 10)%Q seed default_retries.

Definition merge_system : string :=
  "You maintain compact long-form story memory. "
  ++ "Output plain text bullet points only, max 350 words.".

Definition merge_prompt (previous_memory latest_summary : string) : string :=
  "Update the running story memory using the latest chapter summary." ++ nl
  ++ "Preserve continuity facts, unresolved threads, alliances, betrayals, emotional state changes, and timeline markers." ++ nl
  ++ "Drop fluff." ++ nl ++ nl
  ++ "PREVIOUS MEMORY:" ++ nl
  ++ previous_memory ++ nl ++ nl
  ++ "LATEST CHAPTER SUMMARY:" ++ nl
  ++ latest_summary ++ nl ++ nl
  ++ "Return updated memory now.".

(** [merge_memory] *)
Definition merge_memory (endpoint model previous_memory latest_summary : string)
    (timeout_sec : Z) (seed : option Z) : M string :=
  ollama_generate endpoint model merge_system
    (merge_prompt previous_memory latest_summary) timeout_sec (2 # 10)%Q seed
    default_retries.

(** ** Chapter production policy *)

Definition chapter_system (spec : BookSpec) : string :=
  "You are writing a " ++ genre spec ++ " novel chapter-by-chapter. "
  ++ "Write natural prose with varied sentence rhythm and pacing. "
  ++ "Avoid repetitive phrasing and avoid reusing prior paragraphs verbatim. "
  ++ "No meta commentary. No outlines. No markdown.".

Definition chapter_prompt_template (spec : BookSpec) (chapter_number : nat)
    (chapter_goal story_memory : string) (target_words : Z) : string :=
  "Book title: " ++ title spec ++ nl
  ++ "Genre: " ++ genre spec ++ nl
  ++ "Premise: " ++ premise spec ++ nl
  ++ "Tone: " ++ tone spec ++ nl
  ++ "Chapter number: " ++ str_of_nat chapter_number ++ nl
  ++ "Target chapter length: about " ++ str_of_Z target_words
  ++ " words (minimum " ++ str_of_Z (Z.max 1200 (target_words - 250)) ++ ")."
  ++ nl ++ nl
  ++ "Story summary so far:" ++ nl
  ++ story_memory ++ nl ++ nl
  ++ "General plot objective for this chapter:" ++ nl
  ++ chapter_goal ++ nl ++ nl
  ++ "Instructions:" ++ nl
  ++ "- Start with 'Chapter {N}: <title>' on the first line." ++ nl
  ++ "- Continue directly with prose scenes." ++ nl
  ++ "- Advance the story materially; include consequences from prior chapters." ++ nl
  ++ "- End with a clear hook into the next chapter." ++ nl
  ++ "- Output chapter text only." ++ nl.

(** [make_chapter_prompt]: the pair [(system, prompt)].  The final
    [replace] acts on the whole prompt, the embedded texts included. *)
Definition make_chapter_prompt (spec : BookSpec) (chapter_number : nat)
    (chapter_goal story_memory : string) (target_words : Z)
    : string * string :=
  (chapter_system spec,
   replace_N (str_of_nat chapter_number)
     (chapter_prompt_template spec chapter_number chapter_goal story_memory
        target_words)).

(** [manuscript_text] *)
Definition manuscript_text (title : string) (chapters : list string) : string :=
  let header := title ++ nl ++ nl in
  header ++ strip (join (nl ++ nl) chapters) ++ nl.

Definition generic_goal : string :=
  "Continue escalation from prior chapter, deepen character consequences, "
  ++ "and set up the final resolution without repeating earlier scenes.".

(** The objective of chapter [chapter_no] (lines 368-374).  The controller
    only asks for [chapter_no = len(chapters) + 1], which is positive. *)
Definition select_goal (plans : list string) (chapter_no : nat) : string :=
  if (chapter_no <=? List.length plans)%nat
  then nth (chapter_no - 1) plans EmptyString
  else generic_goal.

Definition fuller_scenes : string := " Write fuller scenes and dialogue.".

(** The placeholder title line put before a text that lacks the marker. *)
Definition untitled (chapter_no : nat) (chapter_text : string) : string :=
  "Chapter " ++ str_of_nat chapter_no ++ ": Untitled" ++ nl ++ nl ++ chapter_text.

(** Lines 394-395. *)
Definition with_marker (chapter_no : nat) (chapter_text : string) : string :=
  if startswith "chapter " (lower chapter_text) then chapter_text
  else untitled chapter_no chapter_text.

(** [ch_words < max(900, target_chapter_words // 2)] *)
Definition too_short (ch_words : nat) (target_chapter_words : Z) : bool :=
  (Z.of_nat ch_words <? Z.max 900 (target_chapter_words / 2))%Z.

(** ** Resumable generation controller *)

(** What [generate_one_book] receives besides the book. *)
Record Config := {
  output_dir : string;
  endpoint : string;
  model : string;
  min_words : Z;
  target_chapter_words : Z;
  max_chapters : Z;
  timeout_sec : Z;
  seed : option Z
}.

Section Controller.

Variable spec : BookSpec.
Variable cfg : Config.

(** [re.sub(r"[^a-z0-9]+", "_", spec.title.lower()).strip("_")] *)
Definition slug : string :=
  strip_by (fun c => (c =? "_")%char) (squash false (lower (title spec))).

Definition state_path : Path :=
  {| dir := output_dir cfg; name := slug ++ ".state.json" |}.
Definition book_path : Path :=
  {| dir := output_dir cfg; name := slug ++ ".txt" |}.

(** The state of a book without a state file (lines 354-361). *)
Definition fresh_state (created_at : string) : State :=
  {| st_title := title spec; st_genre := genre spec;
     st_chapters := []; st_summaries := [];
     st_memory := "No chapters yet.";
     st_created_at := created_at;
     st_updated_at := None; st_word_count := None |}.

(** [read_state(state_path) or {...}]: the clock is read only when there
    is no state file. *)
Definition load_state : M State :=
  loaded <- read_state (output_dir cfg) slug ;;
  match loaded with
  | Some st => ret st
  | None => created_at <- now_iso ;; ret (fresh_state created_at)
  end.

(** The loop condition (line 366). *)
Definition needs_chapter (chapters : list string) : bool :=
  ((Z.of_nat (count_words (manuscript_text (title spec) chapters)) <? min_words cfg)
   && (Z.of_nat (List.length chapters) <? max_chapters cfg))%Z.

(** Lines 367-418: the text of the next chapter.  One generation call; a
    second one when the first text is too short. *)
Definition produce_chapter (chapters : list string) (story_memory : string)
    : M string :=
  let chapter_no := List.length chapters + 1 in
  let chapter_goal := select_goal (chapter_plans spec) chapter_no in
  let '(system, prompt) :=
    make_chapter_prompt spec chapter_no chapter_goal story_memory
      (target_chapter_words cfg) in
  generated <- ollama_generate (endpoint cfg) (model cfg) system prompt
                 (timeout_sec cfg) (75 # 100)%Q (seed cfg) default_retries ;;
  let chapter_text := with_marker chapter_no (strip generated) in
  let ch_words := count_words chapter_text in
  if too_short ch_words (target_chapter_words cfg) then
    let '(system_retry, prompt_retry) :=
      make_chapter_prompt spec chapter_no (chapter_goal ++ fuller_scenes)
        story_memory (Z.max (target_chapter_words cfg) 2000) in
    regenerated <- ollama_generate (endpoint cfg) (model cfg) system_retry
                     prompt_retry (timeout_sec cfg) (8 # 10)%Q (seed cfg)
                     default_retries ;;
    ret (strip regenerated)
  else ret chapter_text.

Definition summary_unavailable (chapter_no : nat) (exc : Exc) : string :=
  "Chapter " ++ str_of_nat chapter_no ++ " summary unavailable due to error: "
  ++ exc_msg exc.

(** Lines 422-431: the summary of the accepted chapter, or a placeholder. *)
Definition chapter_summary_of (chapter_no : nat) (chapter_text : string)
    : M string :=
  try_except
    (summary <- summarize_chapter (endpoint cfg) (model cfg) chapter_text
                  (timeout_sec cfg) (seed cfg) ;;
     ret (strip summary))
    is_exception
    (fun exc => ret (summary_unavailable chapter_no exc)).

(** The memory the controller falls back to (lines 445-446). *)
Definition fallback_memory (chapter_summaries : list string) : string :=
  let tail := join nl (lastn 5 chapter_summaries) in
  "Recent continuity notes:" ++ nl ++ tail.

(** Lines 435-446: the next story memory. *)
Definition next_memory (story_memory chapter_summary : string)
    (chapter_summaries : list string) : M string :=
  try_except
    (merged <- merge_memory (endpoint cfg) (model cfg) story_memory
                 chapter_summary (timeout_sec cfg) (seed cfg) ;;
     ret (strip merged))
    is_exception
    (fun _ => ret (fallback_memory chapter_summaries)).

(** [state.update({...})] (lines 448-456). *)
Definition updated_state (state : State) (chapters chapter_summaries : list string)
    (story_memory updated_at : string) : State :=
  {| st_title := st_title state; st_genre := st_genre state;
     st_chapters := chapters; st_summaries := chapter_summaries;
     st_memory := story_memory;
     st_created_at := st_created_at state;
     st_updated_at := Some updated_at;
     st_word_count :=
       Some (count_words (manuscript_text (title spec) chapters)) |}.

(** One iteration of the loop (lines 367-463).  On entry the local
    variables [chapters], [chapter_summaries] and [story_memory] hold what
    the [state] dict holds under the same keys: they are read from it
    before the loop and written back to it by each iteration, so the
    iteration is a function of [state]. *)
Definition book_step (state : State) : M State :=
  let chapters := st_chapters state in
  let chapter_summaries := st_summaries state in
  let story_memory := st_memory state in
  let chapter_no := List.length chapters + 1 in
  chapter_text <- produce_chapter chapters story_memory ;;
  let chapters := (chapters ++ [chapter_text])%list in
  chapter_summary <- chapter_summary_of chapter_no chapter_text ;;
  let chapter_summaries := (chapter_summaries ++ [chapter_summary])%list in
  story_memory <- next_memory story_memory chapter_summary chapter_summaries ;;
  updated_at <- now_iso ;;
  let state := updated_state state chapters chapter_summaries story_memory
                 updated_at in
  write_state (output_dir cfg) slug state ;;;
  let manuscript := manuscript_text (title spec) chapters in
  write_book (output_dir cfg) slug manuscript ;;;
  ret state.

(** The [while] loop (line 366); [fuel] bounds the iterations. *)
Fixpoint book_loop (fuel : nat) (state : State) : M State :=
  if needs_chapter (st_chapters state) then
    match fuel with
    | O => out_of_fuel
    | S fuel' => state' <- book_step state ;; book_loop fuel' state'
    end
  else ret state.

Definition make_metadata (chapters chapter_summaries : list string)
    (generated_at : string) : Metadata :=
  {| m_title := title spec; m_genre := genre spec;
     m_model := model cfg; m_endpoint := endpoint cfg;
     m_total_words := count_words (manuscript_text (title spec) chapters);
     m_chapters := List.length chapters;
     m_target_min_words := min_words cfg;
     m_generated_at := generated_at;
     m_state_file := state_path;
     m_chapter_summaries := chapter_summaries |}.

Definition under_length (total_words : nat) : Exc :=
  MkExc RuntimeError
    (title spec ++ " finished at " ++ str_of_nat total_words
       ++ " words, below requested minimum " ++ str_of_Z (min_words cfg) ++ ". "
       ++ "Increase --max-chapters or --target-chapter-words and rerun.")
    None.

(** Lines 465-487: the metadata document, then the length check. *)
Definition finalize (state : State) : M Path :=
  let chapters := st_chapters state in
  let total_words := count_words (manuscript_text (title spec) chapters) in
  generated_at <- now_iso ;;
  write_meta (output_dir cfg) slug
    (make_metadata chapters (st_summaries state) generated_at) ;;;
  if (Z.of_nat total_words <? min_words cfg)%Z
  then raise (under_length total_words)
  else ret book_path.

(** Each iteration adds a chapter and the loop needs
    [len(chapters) < max_chapters], so this many iterations are enough. *)
Definition loop_budget (state : State) : nat :=
  Z.to_nat (max_chapters cfg - Z.of_nat (List.length (st_chapters state))).

(** [generate_one_book] *)
Definition generate_one_book : M Path :=
  state <- load_state ;;
  state <- book_loop (loop_budget state) state ;;
  finalize state.

End Controller.

(** ** Entry point *)

Definition thriller_plans : list string :=
  [ "Open with an engineered blackout during a high-security data transfer; protagonist Mara traces an impossible access signature.";
    "Mara discovers the breach implicates her missing brother; show conflicting evidence and a near-capture in a train terminal.";
    "A whistleblower gives Mara a dead-man switch drive and is assassinated minutes later.";
    "Mara decrypts part of the drive: a private intelligence consortium is staging market collapses.";
    "A failed handoff in Istanbul reveals a mole inside Mara's own unit.";
    "Mara and analyst Ren break into an archival vault and extract the ledger of covert payments.";
    "The mole frames Mara for treason; she goes off-grid and seeks help from an old rival.";
    "Flashback chapter: the brother's final operation and why he vanished.";
    "Mara runs a social-engineering sting to expose one shell company but triggers a citywide manhunt.";
    "Ren is kidnapped; captors demand the drive key and threaten timed leaks.";
    "Mara trades false keys and buys time while planting spyware in the captor network.";
    "A convoy ambush recovers Ren but confirms the enemy controls satellite surveillance windows.";
    "The pair infiltrate a closed summit where heads of finance and defense meet in secret.";
    "Mara broadcasts partial evidence; the leak causes panic but not arrests.";
    "Internal Affairs corners Mara; she escapes custody through a staged transfer crash.";
    "The brother contacts Mara through a one-use channel and names the mastermind: Director Vale.";
    "Mara verifies Vale manipulated both governments and criminal syndicates for deniable policy outcomes.";
    "A double-cross by Mara's rival destroys their safehouse and burns their remaining cash.";
    "Ren uncovers a physical kill-switch server farm tied to global trading algorithms.";
    "Team enters the server facility under storm cover; multiple squads converge.";
    "Mara confronts the brother, now coerced into running the system.";
    "They trigger a controlled shutdown but must choose between saving evidence and saving hostages.";
    "Final pursuit through flooded tunnels; Vale attempts escape with backup ledgers.";
    "Resolution: Vale exposed, brother's fate ambiguous, and Mara learns the network has successors." ].

Definition romance_plans : list string :=
  [ "Introduce Elena, a conservation architect, and Noah, a hotel developer, clashing over a historic seaside theater.";
    "City council grants temporary injunction; Elena and Noah must co-lead a feasibility study.";
    "Forced proximity: first site survey reveals hidden murals and Noah's genuine admiration for craft.";
    "Elena's ex resurfaces with funding leverage, complicating both project and trust.";
    "Noah confesses his company is under debt pressure and needs a fast outcome.";
    "A storm damages the theater; Elena and Noah spend the night protecting archives.";
    "They share personal losses that shaped their ambitions; emotional intimacy grows.";
    "Public hearing turns hostile after a leaked memo misrepresents Elena's plan.";
    "Noah takes blame publicly, damaging his board position but protecting Elena's reputation.";
    "Romantic midpoint: first kiss after restoring the main stage lights.";
    "Conflict rises: Elena learns Noah once approved demolition permits for a similar landmark.";
    "Elena withdraws, focusing on work; Noah begins independent restitution efforts.";
    "Secondary couple and friends challenge both leads to face fear rather than pride.";
    "Noah secures artisan partners and low-impact financing aligned with Elena's values.";
    "Elena's ex offers a perfect rescue deal that excludes Noah and displaces local artists.";
    "Elena chooses community-first terms but still refuses reconciliation with Noah.";
    "A gala fundraiser fails when anonymous donors withdraw under corporate pressure.";
    "Noah confronts his board and is removed as acting COO.";
    "Elena visits Noah's family inn, learning his mother once saved a heritage district.";
    "They collaborate on a revised plan balancing preservation, accessibility, and profitability.";
    "Final council vote is delayed after legal sabotage; they race to prove document fraud.";
    "Courtroom-adjacent climax: testimony from craftspeople and neighborhood elders secures injunction permanence.";
    "Grand gesture: Noah signs away controlling shares to protect theater covenants.";
    "Resolution: reopening night, committed partnership, and a future project together abroad." ].

Definition fantasy_plans : list string :=
  [ "Open in frostbound valley where apprentice mapmaker Ilya witnesses a starfall that awakens ancient runes.";
    "The village oracle reveals the starfall marks the return of the Hollow Crown.";
    "Ilya joins knight Ser Rowan and healer Tamsin on a quest to find the First Compass.";
    "They cross a mirror marsh where memories become physical threats.";
    "A band of sky-raiders attacks; Ilya discovers latent cartomancy magic.";
    "At ruined observatory they decode celestial routes to three ward-stones.";
    "Political chapter in capital: Regent Maelor seeks the Crown to cement rule.";
    "The party enters ember caverns and bargains with salamander scribes for passage.";
    "Tamsin's oath conflict: saving villagers versus staying on quest schedule.";
    "First ward-stone recovered, but Rowan is cursed with night-blindness.";
    "They seek a moon monastery where monks trade prophecies for true names.";
    "Ilya gives up family name to secure cure fragments and map insight.";
    "Sea crossing chapter with leviathan storm and mutiny among hired sailors.";
    "Second ward-stone lies in drowned library; retrieval costs a sacred relic.";
    "Maelor's hunters capture Tamsin; party forced into a rescue at glass fortress.";
    "Rescue succeeds, but Compass is stolen by an ally revealed as spy.";
    "The spy claims Crown can seal a greater abyss; moral ambiguity deepens.";
    "Ilya reconstructs lost map layer showing Crown's chamber beneath worldroot.";
    "Final journey through root-catacombs where time loops and paths rewrite themselves.";
    "Rowan overcomes curse by fighting without sight using star-echo techniques.";
    "Confrontation with Maelor and spy over whether to destroy or wield the Crown.";
    "Abyss breaches; team must fuse ward-stones while holding collapsing chamber.";
    "Ilya chooses to fracture Crown into three living oaths bound to companions.";
    "Resolution: kingdom enters uneasy peace; new order of map-keepers is founded." ].

(** [default_specs] *)
Definition default_specs : list BookSpec :=
  [ {| genre := "thriller";
       title := "Null Meridian";
       premise := "A cyber-intelligence officer uncovers a transnational conspiracy that engineers crises for profit and policy control.";
       tone := "tense, procedural, cinematic but grounded";
       chapter_plans := thriller_plans |};
    {| genre := "romance";
       title := "Theater of Tides";
       premise := "Two professionals with opposing priorities must save a historic theater and confront what they truly value.";
       tone := "emotionally layered, witty, intimate, heartfelt";
       chapter_plans := romance_plans |};
    {| genre := "fantasy";
       title := "The Starcartographer's Oath";
       premise := "A young mapmaker and unlikely allies race to prevent a relic from remaking the realm.";
       tone := "epic, lyrical, adventurous with strong character bonds";
       chapter_plans := fantasy_plans |} ].

(** [pth.read_text()] of a manuscript; a missing file raises. *)
Definition read_book (d slug : string) : M string :=
  fun w =>
    match f_book (files w d slug) with
    | Some text => (Ok text, w)
    | None => (Raise (MkExc OtherException "No such file or directory" None), w)
    end.

(** The timeout of the health probe (line 508). *)
Definition health_timeout (timeout_sec : Z) : Z :=
  Z.max 5 (Z.min timeout_sec 30).

(** The loop over the books (lines 514-528). *)
Fixpoint generate_books (args : Config) (specs : list BookSpec)
    : M (list Path) :=
  match specs with
  | [] => ret []
  | spec :: rest =>
      out_path <- generate_one_book spec args ;;
      generated <- generate_books args rest ;;
      ret (out_path :: generated)
  end.

(** The closing report (lines 531-533) reads every manuscript back. *)
Fixpoint report_books (args : Config) (specs : list BookSpec)
    : M (list nat) :=
  match specs with
  | [] => ret []
  | spec :: rest =>
      text <- read_book (output_dir args) (slug spec) ;;
      counts <- report_books args rest ;;
      ret (count_words text :: counts)
  end.

(** [main], after [parse_args]: [args] holds the parsed options, with the
    output directory already resolved and created. *)
Definition main (args : Config) : M Z :=
  check_ollama (endpoint args) (health_timeout (timeout_sec args)) ;;;
  generate_books args default_specs ;;;
  report_books args default_specs ;;;
  ret 0%Z.

(** ** Vocabulary of the statements *)

(** What one attempt of [ollama_generate] amounts to: a text to return, a
    failure its [except] clause catches, or an exception it lets through. *)
Inductive Attempt :=
| Success (text : string)
| Transient (exc : Exc)
| Fatal (exc : Exc).

Definition classify (r : PostResult) : Attempt :=
  match r with
  | PostBody s =>
      if (strip s =? "")%string then Transient empty_response
      else Success (strip s)
  | PostRaise e => if is_transient e then Transient e else Fatal e
  end.

(** The events of one call that makes [S more] attempts, the first of
    them numbered [attempt]. *)
Fixpoint retry_events (url : string) (payload : Payload) (timeout : Z)
    (attempt : Z) (more : nat) : list Event :=
  EvPost url payload timeout ::
  match more with
  | O => []
  | S m =>
      EvSleep (attempt * 2)
        :: retry_events url payload timeout (attempt + 1) m
  end.

Definition is_net_event (ev : Event) : bool :=
  match ev with
  | EvPost _ _ _ | EvSleep _ => true
  | _ => false
  end.

(** [w'] differs from [w] by requests and pauses only. *)
Record net_step (w w' : World) : Prop := {
  ns_service : service w' = service w;
  ns_clock : clock w' = clock w;
  ns_health : health w' = health w;
  ns_files : files w' = files w;
  ns_ticks : ticks w' = ticks w;
  ns_posts : posts w <= posts w';
  ns_trace : exists evs,
      trace w' = (trace w ++ evs)%list /\ forallb is_net_event evs = true
}.

(** The state documents written along a trace, oldest first. *)
Definition persisted (tr : list Event) : list State :=
  flat_map (fun ev => match ev with EvWriteState _ _ st => [st] | _ => [] end) tr.

(** The number of POST requests along a trace. *)
Definition post_count (tr : list Event) : nat :=
  List.length (filter (fun ev => match ev with EvPost _ _ _ => true | _ => false end) tr).

Definition balanced (st : State) : Prop :=
  List.length (st_chapters st) = List.length (st_summaries st).

Definition words_of (spec : BookSpec) (st : State) : nat :=
  count_words (manuscript_text (title spec) (st_chapters st)).

(** Each state of [sts] extends the one before it, [prev] at first, by one
    chapter and one summary, and has at least as many words. *)
Fixpoint grows (spec : BookSpec) (prev : State) (sts : list State) : Prop :=
  match sts with
  | [] => True
  | st :: rest =>
      (exists chapter summary,
          st_chapters st = (st_chapters prev ++ [chapter])%list
          /\ st_summaries st = (st_summaries prev ++ [summary])%list)
      /\ words_of spec prev <= words_of spec st
      /\ st_word_count st = Some (words_of spec st)
      /\ grows spec st rest
  end.

(** The state a run starts from, given what the state file holds. *)
Definition starting_state (spec : BookSpec) (cfg : Config) (w : World) : State :=
  match f_state (files w (output_dir cfg) (slug spec)) with
  | Some st => st
  | None => fresh_state spec (clock w (ticks w))
  end.

(** The world after a call that made [k] attempts from [w]. *)
Definition after_attempts (url : string) (payload : Payload) (timeout : Z)
    (w : World) (k : nat) : World :=
  {| service := service w; clock := clock w; health := health w;
     files := files w;
     trace := (trace w ++ retry_events url payload timeout 1 (k - 1))%list;
     posts := k + posts w; ticks := ticks w |}.

(** What the [i]-th POST after [w] amounts to, when it carries this
    request. *)
Definition outcome_at (url : string) (payload : Payload) (timeout : Z)
    (w : World) (i : nat) : Attempt :=
  classify (service w (i + posts w) url payload timeout).

(** The request body [ollama_generate] builds. *)
Definition payload_of (model system prompt : string) (temperature : Q)
    (seed : option Z) : Payload :=
  {| p_model := model; p_system := system; p_prompt := prompt;
     p_temperature := temperature; p_seed := seed |}.

(** An exception that leaves [ollama_generate]: one its [except] clause
    does not catch, or the terminal failure with its cause attached. *)
Definition escapes_transport (e : Exc) : Prop :=
  is_transient e = false \/ exc_cause e <> None.

(** An action that only talks to the service: it never runs out of fuel
    and every exception it raises satisfies [P]. *)
Definition net_action {A} (m : M A) (P : Exc -> Prop) : Prop :=
  forall w r w',
    m w = (r, w') ->
    net_step w w' /\ r <> OutOfFuel /\ (forall e, r = Raise e -> P e).

(** The world after the persist step of an iteration that started
    persisting in [w] (lines 448-460). *)
Definition after_persist (spec : BookSpec) (cfg : Config) (w : World)
    (st : State) : World :=
  snd (write_book (output_dir cfg) (slug spec)
         (manuscript_text (title spec) (st_chapters st))
         (snd (write_state (output_dir cfg) (slug spec) st (count_tick w)))).

(** The runs of the loop: [run_to st w st' w'] when iterations that all
    succeed lead from [st] in world [w] to [st'] in world [w']. *)
Inductive run_to (spec : BookSpec) (cfg : Config)
    : State -> World -> State -> World -> Prop :=
| run_here st w : run_to spec cfg st w st w
| run_step st w st1 w1 st2 w2 :
    needs_chapter spec cfg (st_chapters st) = true ->
    book_step spec cfg st w = (Ok st1, w1) ->
    run_to spec cfg st1 w1 st2 w2 ->
    run_to spec cfg st w st2 w2.

(** [w'] continues the history of [w]. *)
Definition trace_extends (w w' : World) : Prop :=
  exists evs, trace w' = (trace w ++ evs)%list.

(** The result of the regeneration call is taken as it comes. *)
Definition accept_regenerated (res : Outcome string * World)
    : Outcome string * World :=
  match res with
  | (Ok regenerated, w) => (Ok (strip regenerated), w)
  | other => other
  end.

(** An attempt that does not produce a text and that [except Exception]
    can absorb. *)
Definition fails (a : Attempt) : Prop :=
  match a with
  | Success _ => False
  | Transient _ => True
  | Fatal e => is_exception e = true
  end.

(** Every merge request fails, at whatever moment it is sent. *)
Definition merge_always_fails (w : World) : Prop :=
  forall n url payload timeout,
    p_system payload = merge_system ->
    fails (classify (service w n url payload timeout)).

(** Every other request is answered with a text that is not blank. *)
Definition others_succeed (w : World) : Prop :=
  forall n url payload timeout,
    p_system payload <> merge_system ->
    exists text, classify (service w n url payload timeout) = Success text.

(** A run that got past its loop: it returned the manuscript path or
    raised the under-length failure. *)
Definition completed (spec : BookSpec) (cfg : Config) (r : Outcome Path) : Prop :=
  r = Ok (book_path spec cfg)
  \/ exists total, r = Raise (under_length spec cfg total).

(** Two metadata documents that agree on every entry but [generated_at]. *)
Definition same_but_timestamp (m1 m2 : Metadata) : Prop :=
  m_title m1 = m_title m2
  /\ m_genre m1 = m_genre m2
  /\ m_model m1 = m_model m2
  /\ m_endpoint m1 = m_endpoint m2
  /\ m_total_words m1 = m_total_words m2
  /\ m_chapters m1 = m_chapters m2
  /\ m_target_min_words m1 = m_target_min_words m2
  /\ m_state_file m1 = m_state_file m2
  /\ m_chapter_summaries m1 = m_chapter_summaries m2.

(** The service answers every request with [text]. *)
Definition always_answers (w : World) (text : string) : Prop :=
  forall n url payload timeout, service w n url payload timeout = PostBody text.

(** Chapters that all have as many words as [text]. *)
Definition stub_sized (text : string) (chapters : list string) : Prop :=
  Forall (fun c => count_words c = count_words text) chapters.

(** ** Scenarios: concrete books, services and worlds *)

Module Scenario.

Fixpoint filler (n : nat) : string :=
  match n with
  | O => EmptyString
  | S k => "a " ++ filler k
  end.

(** A chapter of 1500 words that opens with the marker. *)
Definition chapter_1500 : string := "Chapter one " ++ filler 1498.

Definition short_chapter : string := "Chapter 1: Dusk fell over the harbor.".

(** A service that answers every request with the same text. *)
Definition constant_service (text : string)
    : nat -> string -> Payload -> Z -> PostResult :=
  fun _ _ _ _ => PostBody text.

(** A service whose merge requests fail and whose other requests are
    answered with [text]. *)
Definition merge_down_service (text : string)
    : nat -> string -> Payload -> Z -> PostResult :=
  fun _ _ payload _ =>
    if (p_system payload =? merge_system)%string
    then PostRaise (MkExc URLError "connection refused" None)
    else PostBody text.

(** A service that is down for the first two requests. *)
Definition flaky_service (text : string)
    : nat -> string -> Payload -> Z -> PostResult :=
  fun n _ _ _ =>
    if (n <? 2)%nat then PostRaise (MkExc TimeoutError "timed out" None)
    else PostBody text.

(** An empty output directory, a clock that never repeats a reading. *)
Definition initial_world (srv : nat -> string -> Payload -> Z -> PostResult)
    : World :=
  {| service := srv;
     clock := fun n => "T" ++ str_of_nat n;
     health := fun _ _ => HealthStatus 200;
     files := fun _ _ => no_files;
     trace := [];
     posts := 0;
     ticks := 0 |}.

Definition null_meridian : BookSpec :=
  {| genre := "thriller";
     title := "Null Meridian";
     premise := "A cyber-intelligence officer uncovers a conspiracy.";
     tone := "tense";
     chapter_plans := ["Open with an engineered blackout."; "Mara discovers the breach."] |}.

Definition config (min_words max_chapters : Z) : Config :=
  {| output_dir := "/books"; endpoint := "http://127.0.0.1:11434/";
     model := "llama3.1:8b"; min_words := min_words;
     target_chapter_words := 1800; max_chapters := max_chapters;
     timeout_sec := 240; seed := None |}.

End Scenario.

(** * Properties *)

(** ** Words and whitespace *)

Section TextFacts.

Lemma append_assoc (a b c : string) : (a ++ b) ++ c = a ++ (b ++ c).
Proof. induction a as [|x a IH]; simpl; [reflexivity | now rewrite IH]. Qed.

Lemma space_is_no_word_char (c : ascii) :
  is_space c = true -> is_word_char c = false.
Proof.
  destruct c as [b0 b1 b2 b3 b4 b5 b6 b7].
  destruct b0, b1, b2, b3, b4, b5, b6, b7; vm_compute; congruence.
Qed.

Lemma count_from_lstrip (s : string) :
  count_from false (lstrip_by is_space s) = count_from false s.
Proof.
  induction s as [|c r IH]; simpl; [reflexivity|].
  destruct (is_space c) eqn:Hc; [|reflexivity].
  now rewrite (space_is_no_word_char _ Hc).
Qed.

Lemma count_from_rstrip (s : string) (inw : bool) :
  count_from inw (rstrip_by is_space s) = count_from inw s.
Proof.
  revert inw; induction s as [|c r IH]; intro inw; simpl; [reflexivity|].
  destruct (rstrip_by is_space r) as [|a r'] eqn:Hr.
  - destruct (is_space c) eqn:Hc.
    + rewrite (space_is_no_word_char _ Hc), <- IH. reflexivity.
    + simpl. rewrite <- (IH true), <- (IH false). reflexivity.
  - rewrite <- (IH true), <- (IH false). reflexivity.
Qed.

Lemma count_words_strip (s : string) : count_words (strip s) = count_words s.
Proof.
  unfold count_words, strip, strip_by.
  now rewrite count_from_lstrip, count_from_rstrip.
Qed.

(** A character that is no word character separates the words on its two
    sides. *)
Lemma count_from_separated (a b : string) (c : ascii) (inw : bool) :
  is_word_char c = false ->
  count_from inw (a ++ String c b) = count_from inw a + count_words b.
Proof.
  intro Hc. revert inw.
  induction a as [|x a IH]; intro inw; simpl.
  - now rewrite Hc.
  - destruct (is_word_char x); rewrite IH; [|reflexivity].
    destruct inw; lia.
Qed.

Lemma count_words_newline (a b : string) :
  count_words (a ++ nl ++ b) = count_words a + count_words b.
Proof. apply count_from_separated. reflexivity. Qed.

Lemma count_words_join (parts : list string) :
  count_words (join (nl ++ nl) parts) = list_sum (map count_words parts).
Proof.
  induction parts as [|x [|y rest] IH].
  - reflexivity.
  - unfold count_words. simpl. lia.
  - change (join (nl ++ nl) (x :: y :: rest))
      with (x ++ nl ++ (nl ++ join (nl ++ nl) (y :: rest))).
    rewrite count_words_newline.
    change (nl ++ join (nl ++ nl) (y :: rest))
      with (EmptyString ++ nl ++ join (nl ++ nl) (y :: rest)).
    rewrite count_words_newline, IH. reflexivity.
Qed.

(** The words of a manuscript: those of the title line and of every
    chapter. *)
Lemma manuscript_words (title : string) (chapters : list string) :
  count_words (manuscript_text title chapters)
  = count_words title + list_sum (map count_words chapters).
Proof.
  unfold manuscript_text.
  rewrite !append_assoc, count_words_newline.
  change (nl ++ strip (join (nl ++ nl) chapters) ++ nl)
    with (EmptyString ++ nl ++ (strip (join (nl ++ nl) chapters) ++ nl)).
  rewrite count_words_newline.
  replace (strip (join (nl ++ nl) chapters) ++ nl)
    with (strip (join (nl ++ nl) chapters) ++ nl ++ EmptyString) by reflexivity.
  rewrite count_words_newline, count_words_strip, count_words_join.
  change (count_words EmptyString) with 0. lia.
Qed.

Lemma manuscript_words_snoc (title : string) (chapters : list string)
    (chapter : string) :
  count_words (manuscript_text title (chapters ++ [chapter]))
  = count_words (manuscript_text title chapters) + count_words chapter.
Proof.
  rewrite !manuscript_words, map_app, list_sum_app. simpl. lia.
Qed.

Lemma lstrip_idempotent (p : ascii -> bool) (s : string) :
  lstrip_by p (lstrip_by p s) = lstrip_by p s.
Proof.
  induction s as [|c r IH]; simpl; [reflexivity|].
  destruct (p c) eqn:Hc; [exact IH | simpl; now rewrite Hc].
Qed.

Lemma rstrip_idempotent (p : ascii -> bool) (s : string) :
  rstrip_by p (rstrip_by p s) = rstrip_by p s.
Proof.
  induction s as [|c r IH]; simpl; [reflexivity|].
  destruct (rstrip_by p r) as [|a r'] eqn:Hr.
  - destruct (p c) eqn:Hc; simpl; [reflexivity | now rewrite Hc].
  - change (rstrip_by p (String c (String a r')))
      with (match rstrip_by p (String a r') with
            | EmptyString => if p c then EmptyString else String c EmptyString
            | x => String c x
            end).
    now rewrite IH.
Qed.

Lemma lstrip_keeps_clean_end (p : ascii -> bool) (s : string) :
  rstrip_by p s = s -> rstrip_by p (lstrip_by p s) = lstrip_by p s.
Proof.
  induction s as [|c r IH]; simpl; [reflexivity|].
  intro H. destruct (p c) eqn:Hc.
  - apply IH. destruct (rstrip_by p r) as [|a r'].
    + discriminate.
    + now injection H.
  - simpl. rewrite Hc. exact H.
Qed.

Lemma strip_idempotent (s : string) : strip (strip s) = strip s.
Proof.
  unfold strip, strip_by.
  rewrite (lstrip_keeps_clean_end _ _ (rstrip_idempotent is_space s)).
  apply lstrip_idempotent.
Qed.

Lemma words_not_blank (s : string) : 0 < count_words s -> strip s <> EmptyString.
Proof.
  intros H E. rewrite <- count_words_strip, E in H.
  change (count_words EmptyString) with 0 in H. lia.
Qed.

End TextFacts.

(** ** The transport layer *)

Section Transport.

Variables (url : string) (payload : Payload) (timeout : Z).

Lemma empty_response_transient : is_transient empty_response = true.
Proof. reflexivity. Qed.

(** One iteration of the retry loop, by the kind of its attempt. *)
Lemma generate_loop_step (fuel : nat) (retries attempt : Z) (w : World) :
  generate_loop (S fuel) url payload timeout retries attempt w
  = let w1 := count_post (emit (EvPost url payload timeout) w) in
    match classify (service w (posts w) url payload timeout) with
    | Success text => (Ok text, w1)
    | Fatal e => (Raise e, w1)
    | Transient e =>
        if (attempt + 1 >=? retries)%Z
        then (Raise (generation_failed (attempt + 1) e), w1)
        else generate_loop fuel url payload timeout retries (attempt + 1)
               (emit (EvSleep ((attempt + 1) * 2)) w1)
    end.
Proof.
  simpl. unfold try_except, bind, post_json, classify.
  destruct (service w (posts w) url payload timeout) as [s|e].
  - destruct (strip s =? "")%string; [|reflexivity].
    unfold raise at 1. rewrite empty_response_transient.
    destruct (attempt + 1 >=? retries)%Z; reflexivity.
  - destruct (is_transient e); [|reflexivity].
    destruct (attempt + 1 >=? retries)%Z; reflexivity.
Qed.

(** The same iteration, seen from the world [w0] the call started in. *)
Lemma generate_loop_at (w0 w : World) (i fuel : nat) (retries attempt : Z) :
  service w = service w0 -> posts w = i + posts w0 ->
  generate_loop (S fuel) url payload timeout retries attempt w
  = let w1 := count_post (emit (EvPost url payload timeout) w) in
    match outcome_at url payload timeout w0 i with
    | Success text => (Ok text, w1)
    | Fatal e => (Raise e, w1)
    | Transient e =>
        if (attempt + 1 >=? retries)%Z
        then (Raise (generation_failed (attempt + 1) e), w1)
        else generate_loop fuel url payload timeout retries (attempt + 1)
               (emit (EvSleep ((attempt + 1) * 2)) w1)
    end.
Proof.
  intros Hs Hp. rewrite generate_loop_step. unfold outcome_at.
  now rewrite Hs, Hp.
Qed.

Lemma world_ext (w w' : World) :
  service w = service w' -> clock w = clock w' -> health w = health w' ->
  files w = files w' -> trace w = trace w' -> posts w = posts w' ->
  ticks w = ticks w' -> w = w'.
Proof. destruct w, w'; simpl; intros; subst; reflexivity. Qed.

Ltac same_world :=
  apply world_ext; try reflexivity;
  cbn [trace emit count_post after_attempts retry_events Nat.sub];
  rewrite <- ?app_assoc; reflexivity.

(** A call with the default budget: how many attempts it makes and what
    each of them was. *)
Lemma generate_cases (w : World) :
  exists k r,
    generate_loop 3 url payload timeout 3 0 w
    = (r, after_attempts url payload timeout w k)
    /\ 1 <= k <= 3
    /\ (forall i, i + 1 < k ->
        exists e, outcome_at url payload timeout w i = Transient e)
    /\ match outcome_at url payload timeout w (k - 1) with
       | Success text => r = Ok text
       | Fatal e => r = Raise e
       | Transient e => k = 3 /\ r = Raise (generation_failed 3 e)
       end.
Proof.
  rewrite (generate_loop_at w w 0) by reflexivity. cbv zeta.
  destruct (outcome_at url payload timeout w 0) as [t1|e1|e1] eqn:A0.
  1, 3: exists 1; eexists; (split; [reflexivity|]);
        (split; [lia|]); (split; [intros i Hi; lia|]);
        change (1 - 1) with 0; rewrite A0; reflexivity.
  change (0 + 1 >=? 3)%Z with false. cbv iota.
  rewrite (generate_loop_at w _ 1) by reflexivity. cbv zeta.
  destruct (outcome_at url payload timeout w 1) as [t2|e2|e2] eqn:A1.
  1, 3: exists 2; eexists; (split; [f_equal; same_world|]);
        (split; [lia|]);
        (split; [intros i Hi; assert (i = 0) by lia; subst i; eauto|]);
        change (2 - 1) with 1; rewrite A1; reflexivity.
  change (0 + 1 + 1 >=? 3)%Z with false. cbv iota.
  rewrite (generate_loop_at w _ 2) by reflexivity. cbv zeta.
  change (0 + 1 + 1 + 1 >=? 3)%Z with true. cbv iota.
  change (0 + 1 + 1 + 1)%Z with 3%Z.
  exists 3.
  assert (Hprev : forall i, i + 1 < 3 ->
                  exists e, outcome_at url payload timeout w i = Transient e)
    by (intros i Hi; assert (i = 0 \/ i = 1) as [-> | ->] by lia; eauto).
  destruct (outcome_at url payload timeout w 2) as [t3|e3|e3] eqn:A2;
    eexists; (split; [f_equal; same_world|]);
    (split; [lia|]); (split; [exact Hprev|]);
    change (3 - 1) with 2; rewrite A2; auto.
Qed.

End Transport.

Section TransportCalls.

Variables (endpoint model system prompt : string) (timeout : Z)
  (temperature : Q) (seed : option Z).

Local Abbreviation url := (generate_url endpoint).
Local Abbreviation payload := (payload_of model system prompt temperature seed).
Local Abbreviation call :=
  (ollama_generate endpoint model system prompt timeout temperature seed
     default_retries).

Lemma ollama_generate_cases (w : World) :
  exists k r,
    call w = (r, after_attempts url payload timeout w k)
    /\ 1 <= k <= 3
    /\ (forall i, i + 1 < k ->
        exists e, outcome_at url payload timeout w i = Transient e)
    /\ match outcome_at url payload timeout w (k - 1) with
       | Success text => r = Ok text
       | Fatal e => r = Raise e
       | Transient e => k = 3 /\ r = Raise (generation_failed 3 e)
       end.
Proof. exact (generate_cases url payload timeout w). Qed.

Lemma net_step_refl (w : World) : net_step w w.
Proof.
  split; try reflexivity; try lia. exists []. now rewrite app_nil_r.
Qed.

Lemma net_step_trans (w1 w2 w3 : World) :
  net_step w1 w2 -> net_step w2 w3 -> net_step w1 w3.
Proof.
  intros [s1 c1 h1 f1 t1 p1 [ev1 [tr1 n1]]] [s2 c2 h2 f2 t2 p2 [ev2 [tr2 n2]]].
  split; try congruence; try lia.
  exists (ev1 ++ ev2)%list. split.
  - now rewrite tr2, tr1, app_assoc.
  - now rewrite forallb_app, n1, n2.
Qed.

Lemma retry_events_net (u : string) (p : Payload) (t : Z) (more : nat) :
  forall attempt, forallb is_net_event (retry_events u p t attempt more) = true.
Proof. induction more as [|m IH]; intro a; simpl; [reflexivity | apply IH]. Qed.

Lemma net_step_after_attempts (u : string) (p : Payload) (t : Z)
    (w : World) (k : nat) :
  net_step w (after_attempts u p t w k).
Proof.
  split; try reflexivity; simpl; try lia.
  eexists; split; [reflexivity | apply retry_events_net].
Qed.

Lemma classify_success (r : PostResult) (text : string) :
  classify r = Success text -> text <> EmptyString /\ strip text = text.
Proof.
  destruct r as [s|e]; simpl.
  - destruct (String.eqb_spec (strip s) EmptyString); [discriminate|].
    intro H; injection H as <-. split; [assumption | apply strip_idempotent].
  - destruct (is_transient e); discriminate.
Qed.

Lemma classify_fatal (r : PostResult) (e : Exc) :
  classify r = Fatal e -> is_transient e = false.
Proof.
  destruct r as [s|e']; simpl.
  - destruct (strip s =? "")%string; discriminate.
  - destruct (is_transient e') eqn:H; [discriminate|].
    intro E; injection E as <-. exact H.
Qed.

(** What every call guarantees, whatever the service does. *)
Lemma ollama_generate_sound (w w' : World) (r : Outcome string) :
  call w = (r, w') ->
  net_step w w'
  /\ r <> OutOfFuel
  /\ (forall e, r = Raise e -> escapes_transport e)
  /\ (forall text, r = Ok text -> text <> EmptyString /\ strip text = text).
Proof.
  intro H.
  destruct (ollama_generate_cases w) as (k & r0 & E & _ & _ & Hlast).
  rewrite E in H. injection H as <- <-.
  split; [apply net_step_after_attempts|].
  destruct (outcome_at url payload timeout w (k - 1)) as [t|e|e] eqn:A.
  - subst r0. split; [discriminate|]. split; [intros ? ?; discriminate|].
    intros t' E'. injection E' as <-. eapply classify_success. exact A.
  - destruct Hlast as [_ ->]. split; [discriminate|].
    split; [|intros ? ?; discriminate].
    intros e' E'. injection E' as <-. right. discriminate.
  - subst r0. split; [discriminate|]. split; [|intros ? ?; discriminate].
    intros e' E'. injection E' as <-. left. eapply classify_fatal. exact A.
Qed.

(** A first attempt that succeeds ends the call. *)
Lemma ollama_generate_first (w : World) (text : string) :
  outcome_at url payload timeout w 0 = Success text ->
  call w = (Ok text, after_attempts url payload timeout w 1).
Proof.
  intro A.
  change (call w) with (generate_loop 3 url payload timeout 3 0 w).
  rewrite (generate_loop_at url payload timeout w w 0) by reflexivity.
  cbv zeta. rewrite A. reflexivity.
Qed.

End TransportCalls.

(** ** The monad *)

Section MonadFacts.

Context {A B : Type}.

Lemma bind_cases (m : M A) (k : A -> M B) (w w' : World) (r : Outcome B) :
  bind m k w = (r, w') ->
  (exists a w1, m w = (Ok a, w1) /\ k a w1 = (r, w'))
  \/ (exists e, m w = (Raise e, w') /\ r = Raise e)
  \/ (m w = (OutOfFuel, w') /\ r = OutOfFuel).
Proof.
  unfold bind. destruct (m w) as [[a|e|] w1]; intro H.
  - left. eauto.
  - right. left. injection H as <- <-. eauto.
  - right. right. injection H as <- <-. eauto.
Qed.

Lemma bind_ok (m : M A) (k : A -> M B) (w w1 : World) (a : A) :
  m w = (Ok a, w1) -> bind m k w = k a w1.
Proof. unfold bind. now intros ->. Qed.

Lemma bind_raise (m : M A) (k : A -> M B) (w w1 : World) (e : Exc) :
  m w = (Raise e, w1) -> bind m k w = (Raise e, w1).
Proof. unfold bind. now intros ->. Qed.

Lemma net_action_bind (m : M A) (k : A -> M B) (P : Exc -> Prop) :
  net_action m P -> (forall a, net_action (k a) P) -> net_action (bind m k) P.
Proof.
  intros Hm Hk w r w' H.
  apply bind_cases in H as [(a & w1 & E1 & E2) | [(e & E1 & ->) | [E1 ->]]].
  - destruct (Hm _ _ _ E1) as (N1 & _ & _).
    destruct (Hk a _ _ _ E2) as (N2 & F2 & R2).
    split; [eapply net_step_trans; eassumption | split; assumption].
  - destruct (Hm _ _ _ E1) as (N1 & _ & R1).
    split; [assumption|]. split; [discriminate|].
    intros e' E'. injection E' as <-. now apply R1.
  - destruct (Hm _ _ _ E1) as (_ & F & _). now contradiction F.
Qed.

End MonadFacts.

Lemma net_action_ret {A} (a : A) (P : Exc -> Prop) : net_action (ret a) P.
Proof.
  intros w r w' H. injection H as <- <-.
  split; [apply net_step_refl|]. split; [discriminate|]. intros e E. discriminate.
Qed.

(** [try ... except Exception] around a net action whose handler returns a
    value lets only non-[Exception]s through. *)
Lemma net_action_guarded {A} (m : M A) (P : Exc -> Prop) (h : Exc -> A) :
  net_action m P ->
  net_action (try_except m is_exception (fun e => ret (h e)))
    (fun e => is_exception e = false).
Proof.
  intros Hm w r w' H. unfold try_except in H.
  destruct (m w) as [[a|e|] w1] eqn:E; destruct (Hm _ _ _ E) as (N & F & R).
  - injection H as <- <-. split; [assumption|]. split; [discriminate|].
    intros e E'. discriminate.
  - destruct (is_exception e) eqn:Hc.
    + injection H as <- <-. split; [assumption|]. split; [discriminate|].
      intros e' E'. discriminate.
    + injection H as <- <-. split; [assumption|]. split; [discriminate|].
      intros e' E'. injection E' as <-. exact Hc.
  - now contradiction F.
Qed.

Lemma ollama_generate_net (endpoint model system prompt : string) (timeout : Z)
    (temperature : Q) (seed : option Z) :
  net_action
    (ollama_generate endpoint model system prompt timeout temperature seed
       default_retries)
    escapes_transport.
Proof.
  intros w r w' H.
  destruct (ollama_generate_sound _ _ _ _ _ _ _ _ _ _ H) as (N & F & R & _).
  auto.
Qed.

Lemma not_exception_escapes (e : Exc) :
  is_exception e = false -> escapes_transport e.
Proof.
  destruct e as [[] m c]; simpl; intro H; try discriminate. now left.
Qed.

(** ** The steps of the controller *)

Section ControllerFacts.

Variables (spec : BookSpec) (cfg : Config).

Local Abbreviation d := (output_dir cfg).
Local Abbreviation sl := (slug spec).

Lemma produce_chapter_net (chapters : list string) (story_memory : string) :
  net_action (produce_chapter spec cfg chapters story_memory) escapes_transport.
Proof.
  unfold produce_chapter, make_chapter_prompt.
  apply net_action_bind; [apply ollama_generate_net|].
  intro generated. cbv zeta.
  destruct (too_short _ _); [|apply net_action_ret].
  apply net_action_bind; [apply ollama_generate_net|].
  intro regenerated. apply net_action_ret.
Qed.

Lemma chapter_summary_net (chapter_no : nat) (chapter_text : string) :
  net_action (chapter_summary_of cfg chapter_no chapter_text)
    (fun e => is_exception e = false).
Proof.
  unfold chapter_summary_of.
  apply net_action_guarded with (P := escapes_transport)
                                (h := summary_unavailable chapter_no).
  apply net_action_bind; [apply ollama_generate_net|].
  intro s. apply net_action_ret.
Qed.

Lemma next_memory_net (story_memory chapter_summary : string)
    (chapter_summaries : list string) :
  net_action (next_memory cfg story_memory chapter_summary chapter_summaries)
    (fun e => is_exception e = false).
Proof.
  unfold next_memory.
  apply net_action_guarded with (P := escapes_transport)
                                (h := fun _ => fallback_memory chapter_summaries).
  apply net_action_bind; [apply ollama_generate_net|].
  intro s. apply net_action_ret.
Qed.

(** One iteration: either it raises before anything is written, or it
    persists a state that extends [st] by one chapter and one summary. *)
Lemma book_step_cases (st : State) (w w' : World) (r : Outcome State) :
  book_step spec cfg st w = (r, w') ->
  (exists e, r = Raise e /\ net_step w w' /\ escapes_transport e)
  \/ (exists wn chapter summary memory,
         net_step w wn
         /\ r = Ok (updated_state spec st
                      (st_chapters st ++ [chapter])
                      (st_summaries st ++ [summary])
                      memory (clock wn (ticks wn)))
         /\ w' = after_persist spec cfg wn
                   (updated_state spec st
                      (st_chapters st ++ [chapter])
                      (st_summaries st ++ [summary])
                      memory (clock wn (ticks wn)))).
Proof.
  unfold book_step. intro H.
  apply bind_cases in H as [(c & w1 & E1 & H) | [(e & E1 & ->) | [E1 ->]]].
  2: { destruct (produce_chapter_net _ _ _ _ _ E1) as (N & _ & R).
       left. exists e. auto. }
  2: { destruct (produce_chapter_net _ _ _ _ _ E1) as (_ & F & _).
       now contradiction F. }
  destruct (produce_chapter_net _ _ _ _ _ E1) as (N1 & _ & _).
  apply bind_cases in H as [(s & w2 & E2 & H) | [(e & E2 & ->) | [E2 ->]]].
  2: { destruct (chapter_summary_net _ _ _ _ _ E2) as (N & _ & R).
       left. exists e. split; [reflexivity|].
       split; [eapply net_step_trans; eassumption|].
       apply not_exception_escapes. now apply R. }
  2: { destruct (chapter_summary_net _ _ _ _ _ E2) as (_ & F & _).
       now contradiction F. }
  destruct (chapter_summary_net _ _ _ _ _ E2) as (N2 & _ & _).
  apply bind_cases in H as [(m & w3 & E3 & H) | [(e & E3 & ->) | [E3 ->]]].
  2: { destruct (next_memory_net _ _ _ _ _ _ E3) as (N & _ & R).
       left. exists e. split; [reflexivity|].
       split; [eapply net_step_trans; [|eassumption];
               eapply net_step_trans; eassumption|].
       apply not_exception_escapes. now apply R. }
  2: { destruct (next_memory_net _ _ _ _ _ _ E3) as (_ & F & _).
       now contradiction F. }
  destruct (next_memory_net _ _ _ _ _ _ E3) as (N3 & _ & _).
  right. exists w3, c, s, m.
  split; [eapply net_step_trans; [|eassumption];
          eapply net_step_trans; eassumption|].
  unfold bind, now_iso, write_state, write_book, ret in H.
  injection H as <- <-. split; reflexivity.
Qed.

Lemma persisted_app (tr1 tr2 : list Event) :
  persisted (tr1 ++ tr2) = (persisted tr1 ++ persisted tr2)%list.
Proof. apply flat_map_app. Qed.

Lemma persisted_net_events (evs : list Event) :
  forallb is_net_event evs = true -> persisted evs = [].
Proof.
  induction evs as [|ev evs IH]; simpl; [reflexivity|].
  intro H. apply andb_prop in H as [H1 H2].
  destruct ev; try discriminate; simpl; auto.
Qed.

Lemma net_step_persisted (w w' : World) :
  net_step w w' -> persisted (trace w') = persisted (trace w).
Proof.
  intros [_ _ _ _ _ _ (evs & -> & Hnet)].
  now rewrite persisted_app, (persisted_net_events _ Hnet), app_nil_r.
Qed.

Lemma persist_trace (wn : World) (st : State) :
  trace (after_persist spec cfg wn st)
  = (trace wn
       ++ [EvWriteState d sl st;
           EvWriteBook d sl (manuscript_text (title spec) (st_chapters st))])%list.
Proof. unfold after_persist. simpl. now rewrite <- app_assoc. Qed.

Lemma persist_files (wn : World) (st : State) :
  files (after_persist spec cfg wn st) d sl
  = {| f_state := Some st;
       f_book := Some (manuscript_text (title spec) (st_chapters st));
       f_meta := f_meta (files wn d sl) |}.
Proof. unfold after_persist. simpl. now rewrite !String.eqb_refl. Qed.

Lemma book_loop_unfold (fuel : nat) (st : State) :
  book_loop spec cfg fuel st
  = if needs_chapter spec cfg (st_chapters st) then
      match fuel with
      | O => out_of_fuel
      | S fuel' =>
          bind (book_step spec cfg st) (fun st' => book_loop spec cfg fuel' st')
      end
    else ret st.
Proof. destruct fuel; reflexivity. Qed.

(** What the loop returns, in terms of its successful iterations. *)
Lemma book_loop_result (fuel : nat) :
  forall st w r w',
    book_loop spec cfg fuel st w = (r, w') ->
    match r with
    | Ok st' =>
        run_to spec cfg st w st' w'
        /\ needs_chapter spec cfg (st_chapters st') = false
    | Raise e =>
        exists st1 w1,
          run_to spec cfg st w st1 w1
          /\ book_step spec cfg st1 w1 = (Raise e, w')
    | OutOfFuel => True
    end.
Proof.
  induction fuel as [|fuel IH]; intros st w r w' H;
    rewrite book_loop_unfold in H;
    destruct (needs_chapter spec cfg (st_chapters st)) eqn:Hn.
  - injection H as <- <-. exact I.
  - injection H as <- <-. split; [constructor | assumption].
  - apply bind_cases in H as [(st1 & w1 & E1 & H) | [(e & E1 & ->) | [E1 ->]]].
    + specialize (IH _ _ _ _ H). destruct r as [st'|e|]; [| |exact I].
      * destruct IH as [Hrun Hdone]. split; [|assumption].
        eapply run_step; eassumption.
      * destruct IH as (st2 & w2 & Hrun & Hstep).
        exists st2, w2. split; [|assumption].
        eapply run_step; eassumption.
    + exists st, w. split; [constructor | assumption].
    + exact I.
  - injection H as <- <-. split; [constructor | assumption].
Qed.

(** The budget of [generate_one_book] is enough: the loop ends. *)
Lemma book_loop_total (fuel : nat) :
  forall st w,
    loop_budget cfg st <= fuel ->
    fst (book_loop spec cfg fuel st w) <> OutOfFuel.
Proof.
  induction fuel as [|fuel IH]; intros st w Hb;
    rewrite book_loop_unfold;
    destruct (needs_chapter spec cfg (st_chapters st)) eqn:Hn;
    try (simpl; discriminate).
  - unfold needs_chapter in Hn. apply andb_prop in Hn as [_ Hn].
    apply Z.ltb_lt in Hn. unfold loop_budget in Hb. lia.
  - unfold bind. destruct (book_step spec cfg st w) as [r1 w1] eqn:E1.
    destruct (book_step_cases _ _ _ _ E1)
      as [(e & -> & _) | (wn & c & s & m & _ & -> & _)].
    + simpl. discriminate.
    + apply IH. unfold needs_chapter in Hn. apply andb_prop in Hn as [_ Hn].
      apply Z.ltb_lt in Hn. unfold loop_budget in *. simpl.
      rewrite length_app. simpl. lia.
Qed.

Lemma last_nonempty {T} (l : list T) (a d d' : T) :
  last (a :: l) d = last (a :: l) d'.
Proof.
  revert a. induction l as [|b l IH]; intro a; [reflexivity|].
  change (last (b :: l) d = last (b :: l) d'). apply IH.
Qed.

Lemma run_to_persisted (st st' : State) (w w' : World) :
  run_to spec cfg st w st' w' ->
  exists sts,
    persisted (trace w') = (persisted (trace w) ++ sts)%list
    /\ grows spec st sts
    /\ last sts st = st'.
Proof.
  induction 1 as [st w | st w st1 w1 st2 w2 Hn Hstep Hrun IH].
  - exists []. rewrite app_nil_r. simpl. auto.
  - destruct IH as (sts & Htr & Hg & Hlast).
    destruct (book_step_cases _ _ _ _ Hstep)
      as [(e & E & _) | (wn & c & s & m & N & E & ->)]; [discriminate|].
    injection E as E. exists (st1 :: sts). split; [|split].
    + rewrite Htr, persist_trace, persisted_app, (net_step_persisted _ _ N).
      rewrite <- E. simpl. now rewrite <- app_assoc.
    + simpl. split; [|split; [|split]]; try assumption.
      * exists c, s. rewrite E. simpl. auto.
      * unfold words_of. rewrite E. simpl. rewrite manuscript_words_snoc. lia.
      * rewrite E. reflexivity.
    + destruct sts as [|s0 sts]; [exact Hlast|].
      rewrite <- Hlast. change (last (s0 :: sts) st = last (s0 :: sts) st1).
      apply last_nonempty.
Qed.

(** After at least one iteration the state file holds the state the loop
    ended in; without one nothing has changed. *)
Lemma run_to_state_file (st st' : State) (w w' : World) :
  run_to spec cfg st w st' w' ->
  (st' = st /\ w' = w) \/ f_state (files w' d sl) = Some st'.
Proof.
  induction 1 as [st w | st w st1 w1 st2 w2 Hn Hstep Hrun IH].
  - left. auto.
  - right. destruct IH as [[-> ->] | IH]; [|assumption].
    destruct (book_step_cases _ _ _ _ Hstep)
      as [(e & E & _) | (wn & c & s & m & N & E & ->)]; [discriminate|].
    injection E as E. rewrite persist_files, <- E. reflexivity.
Qed.

End ControllerFacts.

(** ** Histories only grow *)

Section Histories.

Variables (spec : BookSpec) (cfg : Config).

Lemma trace_extends_refl (w : World) : trace_extends w w.
Proof. exists []. now rewrite app_nil_r. Qed.

Lemma trace_extends_trans (w1 w2 w3 : World) :
  trace_extends w1 w2 -> trace_extends w2 w3 -> trace_extends w1 w3.
Proof.
  intros [e1 H1] [e2 H2]. exists (e1 ++ e2)%list.
  now rewrite H2, H1, app_assoc.
Qed.

Lemma net_step_extends (w w' : World) : net_step w w' -> trace_extends w w'.
Proof. intros [_ _ _ _ _ _ (evs & H & _)]. now exists evs. Qed.

Lemma persist_extends (wn : World) (st : State) :
  trace_extends wn (after_persist spec cfg wn st).
Proof. eexists. apply persist_trace. Qed.

Lemma book_step_extends (st : State) (w w' : World) (r : Outcome State) :
  book_step spec cfg st w = (r, w') -> trace_extends w w'.
Proof.
  intro H.
  destruct (book_step_cases _ _ _ _ _ _ H)
    as [(e & _ & N & _) | (wn & c & s & m & N & _ & ->)].
  - now apply net_step_extends.
  - eapply trace_extends_trans;
      [apply net_step_extends; eassumption | apply persist_extends].
Qed.

Lemma book_loop_extends (fuel : nat) :
  forall st w r w',
    book_loop spec cfg fuel st w = (r, w') -> trace_extends w w'.
Proof.
  induction fuel as [|fuel IH]; intros st w r w' H;
    rewrite book_loop_unfold in H;
    destruct (needs_chapter spec cfg (st_chapters st));
    try (injection H as <- <-; apply trace_extends_refl).
  apply bind_cases in H as [(st1 & w1 & E1 & H) | [(e & E1 & ->) | [E1 ->]]].
  - eapply trace_extends_trans;
      [eapply book_step_extends; eassumption | eapply IH; eassumption].
  - eapply book_step_extends; eassumption.
  - eapply book_step_extends; eassumption.
Qed.

(** [load_state] always succeeds and yields the starting state. *)
Lemma load_state_result (w : World) :
  exists w0,
    load_state spec cfg w = (Ok (starting_state spec cfg w), w0)
    /\ service w0 = service w /\ clock w0 = clock w /\ health w0 = health w
    /\ files w0 = files w /\ trace w0 = trace w /\ posts w0 = posts w
    /\ ticks w <= ticks w0.
Proof.
  unfold load_state, starting_state, bind, read_state.
  destruct (f_state (files w (output_dir cfg) (slug spec))).
  - exists w. repeat split; auto.
  - eexists. split; [reflexivity|]. simpl. repeat split; auto.
Qed.

(** The last step of a book: what [finalize] returns and leaves behind. *)
Lemma finalize_result (st : State) (w : World) :
  let total := count_words (manuscript_text (title spec) (st_chapters st)) in
  let meta := make_metadata spec cfg (st_chapters st) (st_summaries st)
                (clock w (ticks w)) in
  exists w',
    finalize spec cfg st w
    = (if (Z.of_nat total <? min_words cfg)%Z
       then Raise (under_length spec cfg total)
       else Ok (book_path spec cfg), w')
    /\ trace w' = (trace w ++ [EvWriteMeta (output_dir cfg) (slug spec) meta])%list
    /\ files w' (output_dir cfg) (slug spec)
       = {| f_state := f_state (files w (output_dir cfg) (slug spec));
            f_book := f_book (files w (output_dir cfg) (slug spec));
            f_meta := Some meta |}
    /\ posts w' = posts w /\ service w' = service w /\ clock w' = clock w
    /\ ticks w' = S (ticks w).
Proof.
  cbv zeta. unfold finalize, bind, now_iso, write_meta.
  destruct (Z.of_nat _ <? min_words cfg)%Z;
    (eexists; split; [reflexivity|]; simpl; rewrite !String.eqb_refl;
     repeat split; reflexivity).
Qed.

Lemma generate_one_book_extends (w w' : World) (r : Outcome Path) :
  generate_one_book spec cfg w = (r, w') -> trace_extends w w'.
Proof.
  unfold generate_one_book. intro H.
  destruct (load_state_result w) as (w0 & E0 & _ & _ & _ & _ & T0 & _).
  rewrite (bind_ok _ _ _ _ _ E0) in H.
  assert (X0 : trace_extends w w0)
    by (exists []; now rewrite T0, app_nil_r).
  apply bind_cases in H as [(st1 & w1 & E1 & H) | [(e & E1 & ->) | [E1 ->]]].
  - destruct (finalize_result st1 w1) as (w2 & E2 & T2 & _).
    rewrite E2 in H. injection H as _ <-.
    eapply trace_extends_trans; [exact X0|].
    eapply trace_extends_trans; [eapply book_loop_extends; eassumption|].
    eexists; exact T2.
  - eapply trace_extends_trans; [exact X0|].
    eapply book_loop_extends; eassumption.
  - eapply trace_extends_trans; [exact X0|].
    eapply book_loop_extends; eassumption.
Qed.

(** A run always ends: with a path or with an exception. *)
Lemma generate_one_book_total (w : World) :
  fst (generate_one_book spec cfg w) <> OutOfFuel.
Proof.
  unfold generate_one_book.
  destruct (load_state_result w) as (w0 & E0 & _).
  rewrite (bind_ok _ _ _ _ _ E0).
  pose proof (book_loop_total spec cfg _ (starting_state spec cfg w) w0
                (Nat.le_refl _)) as Hf.
  unfold bind.
  destruct (book_loop spec cfg (loop_budget cfg (starting_state spec cfg w))
              (starting_state spec cfg w) w0) as [[st|e|] w1].
  - destruct (finalize_result st w1) as (w2 & E2 & _). rewrite E2. simpl.
    destruct (Z.of_nat _ <? min_words cfg)%Z; discriminate.
  - simpl. discriminate.
  - now contradiction Hf.
Qed.

End Histories.

Lemma generate_books_extends (args : Config) (specs : list BookSpec) :
  forall w r w',
    generate_books args specs w = (r, w') -> trace_extends w w'.
Proof.
  induction specs as [|spec rest IH]; intros w r w' H; simpl in H.
  - injection H as <- <-. apply trace_extends_refl.
  - apply bind_cases in H as [(p & w1 & E1 & H) | [(e & E1 & ->) | [E1 ->]]];
      try (eapply generate_one_book_extends; eassumption).
    eapply trace_extends_trans;
      [eapply generate_one_book_extends; eassumption|].
    apply bind_cases in H as [(ps & w2 & E2 & H) | [(e & E2 & ->) | [E2 ->]]];
      try (eapply IH; eassumption).
    injection H as _ <-. eapply IH; eassumption.
Qed.

Lemma report_books_quiet (args : Config) (specs : list BookSpec) :
  forall w r w', report_books args specs w = (r, w') -> w' = w.
Proof.
  induction specs as [|spec rest IH]; intros w r w' H; simpl in H.
  - now injection H as <- <-.
  - unfold bind at 1, read_book in H.
    destruct (f_book (files w (output_dir args) (slug spec))).
    + apply bind_cases in H as [(c & w2 & E2 & H) | [(e & E2 & ->) | [E2 ->]]];
        try (eapply IH; eassumption).
      injection H as _ <-. eapply IH; eassumption.
    + now injection H as _ <-.
Qed.

(** * The claims *)

(** ** The text primitives on small inputs *)

Example count_words_title : count_words "Null Meridian" = 2.
Proof. reflexivity. Qed.

Example count_words_apostrophe : count_words "Don't stop--now, 9 o'clock!" = 5.
Proof. reflexivity. Qed.

Example strip_both_ends : strip ("  a b " ++ nl ++ " ") = "a b".
Proof. reflexivity. Qed.

Example slug_of_title :
  slug {| genre := "fantasy"; title := "The Starcartographer's Oath";
          premise := ""; tone := ""; chapter_plans := [] |}
  = "the_starcartographer_s_oath".
Proof. reflexivity. Qed.

Example replace_N_every_occurrence :
  replace_N "12" "Chapter {N}: {{N}} {N" = "Chapter 12: {12} {N".
Proof. reflexivity. Qed.

Example lastn_five :
  lastn 5 ["a"; "b"; "c"; "d"; "e"; "f"; "g"] = ["c"; "d"; "e"; "f"; "g"]
  /\ lastn 5 ["a"; "b"] = ["a"; "b"].
Proof. split; reflexivity. Qed.

Example with_marker_kept :
  with_marker 4 "CHAPTER 4: Ash" = "CHAPTER 4: Ash".
Proof. reflexivity. Qed.

Example with_marker_added :
  with_marker 4 "The rain came." = "Chapter 4: Untitled" ++ nl ++ nl ++ "The rain came.".
Proof. reflexivity. Qed.

Example manuscript_small :
  manuscript_text "T" ["one"; "two"] = "T" ++ nl ++ nl ++ "one" ++ nl ++ nl ++ "two" ++ nl.
Proof. reflexivity. Qed.

(** ** Word count (C9) *)

(** C9. The word count of the loop condition and of the persisted
    [word_count] field is taken over the whole manuscript text, title line
    included: it is the title's word count plus the sum of the chapters'
    word counts. *)
Theorem word_count_includes_title (spec : BookSpec) (cfg : Config)
    (chapters : list string) :
  let total := count_words (title spec) + list_sum (map count_words chapters) in
  count_words (manuscript_text (title spec) chapters) = total
  /\ needs_chapter spec cfg chapters
     = ((Z.of_nat total <? min_words cfg)
        && (Z.of_nat (List.length chapters) <? max_chapters cfg))%Z
  /\ (forall state summaries memory updated_at,
         st_word_count
           (updated_state spec state chapters summaries memory updated_at)
         = Some total).
Proof.
  cbv zeta. split; [apply manuscript_words|]. split.
  - unfold needs_chapter. now rewrite manuscript_words.
  - intros. simpl. now rewrite manuscript_words.
Qed.

(** ** Chapter objectives (C8) *)

Lemma after_attempts_first (url : string) (payload : Payload) (timeout : Z)
    (w : World) (k : nat) :
  exists rest,
    trace (after_attempts url payload timeout w k)
    = (trace w ++ EvPost url payload timeout :: rest)%list.
Proof. unfold after_attempts. simpl. destruct (k - 1); eexists; reflexivity. Qed.

Lemma extends_keeps_first (w w1 w2 : World) (ev : Event) :
  (exists rest, trace w1 = (trace w ++ ev :: rest)%list) ->
  trace_extends w1 w2 ->
  exists rest, trace w2 = (trace w ++ ev :: rest)%list.
Proof.
  intros [rest H1] [evs H2]. exists (rest ++ evs)%list.
  now rewrite H2, H1, <- app_assoc.
Qed.

(** Whatever follows a generation call, the history goes on with the
    first request of that call. *)
Lemma first_request_of_call (endpoint model system prompt : string)
    (timeout : Z) (temperature : Q) (seed : option Z)
    (next : string -> M string) (P : Exc -> Prop) (w : World) :
  (forall text, net_action (next text) P) ->
  exists rest,
    trace (snd (bind (ollama_generate endpoint model system prompt timeout
                        temperature seed default_retries) next w))
    = (trace w
         ++ EvPost (generate_url endpoint)
              (payload_of model system prompt temperature seed) timeout
         :: rest)%list.
Proof.
  intro Hnext.
  destruct (ollama_generate_cases endpoint model system prompt timeout
              temperature seed w) as (k & r & E & _ & _ & _).
  eapply extends_keeps_first; [apply after_attempts_first with (k := k)|].
  unfold bind. rewrite E. destruct r as [text|e|].
  - destruct (next text _) as [r2 w2] eqn:E2.
    destruct (Hnext _ _ _ _ E2) as (N & _). simpl.
    now apply net_step_extends.
  - apply trace_extends_refl.
  - apply trace_extends_refl.
Qed.

Lemma produce_chapter_first_request (spec : BookSpec) (cfg : Config)
    (chapters : list string) (story_memory : string) (w : World) :
  let n := List.length chapters + 1 in
  let request :=
    payload_of (model cfg) (chapter_system spec)
      (replace_N (str_of_nat n)
         (chapter_prompt_template spec n (select_goal (chapter_plans spec) n)
            story_memory (target_chapter_words cfg)))
      (75 # 100) (seed cfg) in
  exists rest,
    trace (snd (produce_chapter spec cfg chapters story_memory w))
    = (trace w
         ++ EvPost (generate_url (endpoint cfg)) request (timeout_sec cfg)
         :: rest)%list.
Proof.
  cbv zeta. unfold produce_chapter, make_chapter_prompt.
  apply first_request_of_call with (P := escapes_transport).
  intro generated. cbv zeta.
  destruct (too_short _ _); [|apply net_action_ret].
  apply net_action_bind; [apply ollama_generate_net|].
  intro regenerated. apply net_action_ret.
Qed.

(** C8. Chapter [n] gets the predefined objective at index [n - 1] while
    [n] is at most the number of predefined objectives, and the generic
    escalation objective beyond; the first request of the chapter carries
    the objective so chosen. *)
Theorem chapter_goal_selection (spec : BookSpec) (cfg : Config)
    (chapters : list string) (story_memory : string) (w : World) (n : nat) :
  n = List.length chapters + 1 ->
  (n <= List.length (chapter_plans spec) ->
   nth_error (chapter_plans spec) (n - 1)
   = Some (select_goal (chapter_plans spec) n))
  /\ (List.length (chapter_plans spec) < n ->
      select_goal (chapter_plans spec) n = generic_goal)
  /\ exists rest,
      trace (snd (produce_chapter spec cfg chapters story_memory w))
      = (trace w
           ++ EvPost (generate_url (endpoint cfg))
                (payload_of (model cfg) (chapter_system spec)
                   (replace_N (str_of_nat n)
                      (chapter_prompt_template spec n
                         (select_goal (chapter_plans spec) n)
                         story_memory (target_chapter_words cfg)))
                   (75 # 100) (seed cfg))
                (timeout_sec cfg)
           :: rest)%list.
Proof.
  intros ->. split; [|split].
  - intro Hle. unfold select_goal.
    destruct (Nat.leb_spec (List.length chapters + 1)
                (List.length (chapter_plans spec))); [|lia].
    apply nth_error_nth'. lia.
  - intro Hlt. unfold select_goal.
    destruct (Nat.leb_spec (List.length chapters + 1)
                (List.length (chapter_plans spec))); [lia|reflexivity].
  - apply produce_chapter_first_request.
Qed.

Lemma chapter_goal_selection_witness :
  exists rest,
    trace (snd (produce_chapter Scenario.null_meridian (Scenario.config 5000 3)
                  [Scenario.short_chapter] "memo"
                  (Scenario.initial_world
                     (Scenario.constant_service Scenario.short_chapter))))
    = (EvPost "http://127.0.0.1:11434/api/generate"
         (payload_of "llama3.1:8b" (chapter_system Scenario.null_meridian)
            (replace_N "2"
               (chapter_prompt_template Scenario.null_meridian 2
                  "Mara discovers the breach." "memo" 1800))
            (75 # 100) None)
         240
       :: rest)%list.
Proof.
  exact (proj2 (proj2
           (chapter_goal_selection Scenario.null_meridian
              (Scenario.config 5000 3) [Scenario.short_chapter] "memo"
              (Scenario.initial_world
                 (Scenario.constant_service Scenario.short_chapter))
              2 eq_refl))).
Defined.

(** ** Health probe (C10) *)

(** C10. The health probe is issued with the timeout
    [max(5, min(timeout_sec, 30))]: between 5 and 30 seconds, hence longer
    than the configured per-call timeout whenever that one is below 5. *)
Theorem health_probe_timeout (args : Config) (w : World) :
  (exists rest,
      trace (snd (main args w))
      = (trace w
           ++ EvHealth (health_url (endpoint args))
                (Z.max 5 (Z.min (timeout_sec args) 30))
           :: rest)%list)
  /\ (5 <= health_timeout (timeout_sec args) <= 30)%Z
  /\ ((timeout_sec args < 5)%Z ->
      health_timeout (timeout_sec args) = 5%Z
      /\ (timeout_sec args < health_timeout (timeout_sec args))%Z).
Proof.
  split; [|unfold health_timeout; lia].
  unfold main.
  set (probe := check_ollama _ _).
  assert (Hprobe : exists r1 w1,
             probe w = (r1, w1)
             /\ trace w1
                = (trace w ++ [EvHealth (health_url (endpoint args))
                                 (health_timeout (timeout_sec args))])%list).
  { unfold probe, check_ollama, try_except.
    destruct (health w _ _) as [status|e].
    - destruct ((status <? 200) || (status >=? 300))%Z;
        do 2 eexists; split; reflexivity.
    - destruct (is_exception e); do 2 eexists; split; reflexivity. }
  destruct Hprobe as (r1 & w1 & E1 & T1).
  eapply extends_keeps_first with (w1 := w1).
  { exists []. exact T1. }
  unfold bind at 1. rewrite E1.
  destruct r1 as [[]|e|]; try apply trace_extends_refl.
  unfold bind at 1.
  destruct (generate_books args default_specs w1) as [r2 w2] eqn:E2.
  apply generate_books_extends in E2.
  destruct r2 as [paths|e|]; try exact E2.
  unfold bind at 1.
  destruct (report_books args default_specs w2) as [r3 w3] eqn:E3.
  apply report_books_quiet in E3. subst w3.
  destruct r3; exact E2.
Qed.

Lemma health_probe_timeout_witness :
  health_timeout 2 = 5%Z /\ (2 < health_timeout 2)%Z.
Proof.
  refine (proj2 (proj2 (health_probe_timeout
                          {| output_dir := "/books"; endpoint := "http://h";
                             model := "m"; min_words := 10;
                             target_chapter_words := 1800; max_chapters := 1;
                             timeout_sec := 2; seed := None |}
                          (Scenario.initial_world
                             (Scenario.constant_service Scenario.short_chapter))))
            _).
  simpl. lia.
Defined.

(** ** Transport retries (C6) *)


(** Three attempts: pauses of 2 and then 4 seconds separate them. *)
Example retry_events_three (url : string) (payload : Payload) (timeout : Z) :
  retry_events url payload timeout 1 2
  = [EvPost url payload timeout; EvSleep 2;
     EvPost url payload timeout; EvSleep 4;
     EvPost url payload timeout].
Proof. reflexivity. Qed.

(** Two timeouts, then an answer: the third attempt returns it. *)
Example flaky_call_returns :
  ollama_generate "http://h/" "m" "sys" "ask" 240 (2 # 10) None default_retries
    (Scenario.initial_world (Scenario.flaky_service (" text " ++ nl)))
  = (Ok "text",
     after_attempts "http://h/api/generate"
       (payload_of "m" "sys" "ask" (2 # 10) None) 240
       (Scenario.initial_world (Scenario.flaky_service (" text " ++ nl))) 3).
Proof. vm_compute. reflexivity. Qed.

(** Blank answers only: the third one ends the call with the terminal
    error, whose cause is the empty-response failure. *)
Example blank_call_fails :
  fst (ollama_generate "http://h/" "m" "sys" "ask" 240 (2 # 10) None
         default_retries
         (Scenario.initial_world (Scenario.constant_service (" " ++ nl))))
  = Raise (MkExc RuntimeError
             "Ollama generation failed after 3 attempts: empty response from Ollama"
             (Some empty_response)).
Proof. vm_compute. reflexivity. Qed.

(** ** Length enforcement (C4) *)

(** C4. When the first attempt of chapter [n] returns a text, that text
    (with the placeholder title line put before it if it lacks the marker)
    is accepted without a further call if it has at least
    [max(900, target // 2)] words.  Otherwise exactly one more call is
    made: its objective is the chapter's objective followed by
    [" Write fuller scenes and dialogue."], its target is
    [max(target, 2000)], its temperature is 0.8 instead of 0.75, and what
    it returns is the chapter, whatever its length. *)
Theorem length_enforcement (spec : BookSpec) (cfg : Config)
    (chapters : list string) (story_memory : string) (w w1 : World)
    (generated : string) :
  let n := List.length chapters + 1 in
  let goal := select_goal (chapter_plans spec) n in
  let target := target_chapter_words cfg in
  let first_try := with_marker n (strip generated) in
  ollama_generate (endpoint cfg) (model cfg) (chapter_system spec)
    (replace_N (str_of_nat n)
       (chapter_prompt_template spec n goal story_memory target))
    (timeout_sec cfg) (75 # 100) (seed cfg) default_retries w
  = (Ok generated, w1) ->
  ((Z.of_nat (count_words first_try) < Z.max 900 (target / 2))%Z ->
   produce_chapter spec cfg chapters story_memory w
   = accept_regenerated
       (ollama_generate (endpoint cfg) (model cfg) (chapter_system spec)
          (replace_N (str_of_nat n)
             (chapter_prompt_template spec n (goal ++ fuller_scenes)
                story_memory (Z.max target 2000)))
          (timeout_sec cfg) (8 # 10) (seed cfg) default_retries w1))
  /\ ((Z.max 900 (target / 2) <= Z.of_nat (count_words first_try))%Z ->
      produce_chapter spec cfg chapters story_memory w = (Ok first_try, w1))
  /\ (75 # 100 < 8 # 10)%Q
  /\ fuller_scenes = " Write fuller scenes and dialogue.".
Proof.
  cbv zeta. intro E.
  unfold produce_chapter, make_chapter_prompt.
  rewrite (bind_ok _ _ _ _ _ E). cbv zeta. unfold too_short.
  split; [|split; [|split; reflexivity]].
  - intro Hshort. apply Z.ltb_lt in Hshort. rewrite Hshort.
    unfold bind, accept_regenerated, ret.
    destruct (ollama_generate _ _ _ _ _ (8 # 10)%Q _ _ w1) as [[t|e|] w2];
      reflexivity.
  - intro Hlong. apply Z.ltb_ge in Hlong. rewrite Hlong. reflexivity.
Qed.

Lemma length_enforcement_witness :
  let spec := Scenario.null_meridian in
  let cfg := Scenario.config 5000 3 in
  let w := Scenario.initial_world (Scenario.constant_service "A quiet night.") in
  let w1 :=
    after_attempts (generate_url (endpoint cfg))
      (payload_of (model cfg) (chapter_system spec)
         (replace_N "1"
            (chapter_prompt_template spec 1 "Open with an engineered blackout."
               "No chapters yet." 1800))
         (75 # 100) None)
      240 w 1 in
  produce_chapter spec cfg [] "No chapters yet." w
  = accept_regenerated
      (ollama_generate (endpoint cfg) (model cfg) (chapter_system spec)
         (replace_N "1"
            (chapter_prompt_template spec 1
               ("Open with an engineered blackout."
                  ++ " Write fuller scenes and dialogue.")
               "No chapters yet." 2000))
         240 (8 # 10) None default_retries w1).
Proof.
  cbv zeta.
  refine (proj1 (length_enforcement Scenario.null_meridian
                   (Scenario.config 5000 3) [] "No chapters yet."
                   (Scenario.initial_world
                      (Scenario.constant_service "A quiet night."))
                   _ "A quiet night." _) _).
  - vm_compute. reflexivity.
  - vm_compute. reflexivity.
Defined.

(** ** Finalization (C5) *)

(** C5. Once the loop has ended, the metadata document, with the final
    word count, the chapter count and all chapter summaries, is written;
    it is the last action of the run.  The run then raises the under-length
    failure, whose message names the word count reached and the minimum
    requested and suggests the two options to raise, exactly when the
    final word count is below [min_words]; otherwise it returns the
    manuscript path. *)
Theorem finalization (spec : BookSpec) (cfg : Config) (w w1 : World)
    (st : State) :
  let st0 := starting_state spec cfg w in
  let total := count_words (manuscript_text (title spec) (st_chapters st)) in
  let meta := make_metadata spec cfg (st_chapters st) (st_summaries st)
                (clock w1 (ticks w1)) in
  book_loop spec cfg (loop_budget cfg st0) st0 (snd (load_state spec cfg w))
  = (Ok st, w1) ->
  exists r w2,
    generate_one_book spec cfg w = (r, w2)
    /\ trace w2 = (trace w1 ++ [EvWriteMeta (output_dir cfg) (slug spec) meta])%list
    /\ f_meta (files w2 (output_dir cfg) (slug spec)) = Some meta
    /\ m_total_words meta = total
    /\ m_chapters meta = List.length (st_chapters st)
    /\ m_chapter_summaries meta = st_summaries st
    /\ ((Z.of_nat total < min_words cfg)%Z ->
        r = Raise (under_length spec cfg total))
    /\ ((min_words cfg <= Z.of_nat total)%Z -> r = Ok (book_path spec cfg))
    /\ exc_msg (under_length spec cfg total)
       = title spec ++ " finished at " ++ str_of_nat total
         ++ " words, below requested minimum " ++ str_of_Z (min_words cfg)
         ++ ". Increase --max-chapters or --target-chapter-words and rerun.".
Proof.
  cbv zeta. intro Hloop.
  destruct (load_state_result spec cfg w) as (w0 & E0 & _).
  rewrite E0 in Hloop. simpl snd in Hloop.
  destruct (finalize_result spec cfg st w1) as (w2 & E2 & T2 & F2 & _).
  cbv zeta in E2, T2, F2.
  eexists. exists w2. split.
  { unfold generate_one_book.
    rewrite (bind_ok _ _ _ _ _ E0), (bind_ok _ _ _ _ _ Hloop). exact E2. }
  split; [exact T2|]. split; [now rewrite F2|].
  repeat (split; [reflexivity|]).
  split; [|split].
  - intro H. apply Z.ltb_lt in H. now rewrite H.
  - intro H. apply Z.ltb_ge in H. now rewrite H.
  - reflexivity.
Qed.

Lemma finalization_witness :
  let spec := Scenario.null_meridian in
  let cfg := Scenario.config 5 3 in
  let w := Scenario.initial_world
             (Scenario.constant_service Scenario.short_chapter) in
  exists r w2 meta,
    generate_one_book spec cfg w = (r, w2)
    /\ r = Ok (book_path spec cfg)
    /\ f_meta (files w2 (output_dir cfg) (slug spec)) = Some meta
    /\ m_chapters meta = 1
    /\ m_total_words meta = 9.
Proof.
  cbv zeta.
  pose (spec := Scenario.null_meridian).
  pose (cfg := Scenario.config 5 3).
  pose (w := Scenario.initial_world
               (Scenario.constant_service Scenario.short_chapter)).
  pose (res := book_loop spec cfg
                 (loop_budget cfg (starting_state spec cfg w))
                 (starting_state spec cfg w) (snd (load_state spec cfg w))).
  pose (st := match fst res with Ok s => s | _ => fresh_state spec "" end).
  destruct (finalization spec cfg w (snd res) st)
    as (r & w2 & E & _ & F & Htot & Hch & _ & _ & Hok & _).
  { vm_compute. reflexivity. }
  exists r, w2. eexists.
  split; [exact E|].
  split; [apply Hok; vm_compute; discriminate|].
  split; [exact F|].
  split; [rewrite Hch | rewrite Htot]; vm_compute; reflexivity.
Defined.

(** ** Monotonic state (C7) *)

Lemma grows_balanced (spec : BookSpec) (sts : list State) :
  forall prev, balanced prev -> grows spec prev sts -> Forall balanced sts.
Proof.
  induction sts as [|st rest IH]; intros prev Hb Hg; [constructor|].
  destruct Hg as ((c & s & Hc & Hs) & _ & _ & Hrest).
  assert (Hst : balanced st).
  { unfold balanced in *. rewrite Hc, Hs, !length_app, Hb. reflexivity. }
  constructor; [assumption | eapply IH; eassumption].
Qed.

(** Every state document a run writes, in order. *)
Lemma generate_one_book_persisted (spec : BookSpec) (cfg : Config)
    (w w' : World) (r : Outcome Path) :
  generate_one_book spec cfg w = (r, w') ->
  exists sts,
    persisted (trace w') = (persisted (trace w) ++ sts)%list
    /\ grows spec (starting_state spec cfg w) sts.
Proof.
  unfold generate_one_book. intro H.
  destruct (load_state_result spec cfg w) as (w0 & E0 & _ & _ & _ & _ & T0 & _).
  rewrite (bind_ok _ _ _ _ _ E0) in H. rewrite <- T0.
  apply bind_cases in H as [(st1 & w1 & E1 & H) | [(e & E1 & ->) | [E1 ->]]].
  - apply book_loop_result in E1 as [Hrun _].
    destruct (run_to_persisted _ _ _ _ _ _ Hrun) as (sts & Htr & Hg & _).
    destruct (finalize_result spec cfg st1 w1) as (w2 & E2 & T2 & _).
    rewrite E2 in H. injection H as _ <-.
    exists sts. split; [|assumption].
    rewrite T2, persisted_app, Htr. simpl. now rewrite app_nil_r.
  - apply book_loop_result in E1 as (st1 & w1 & Hrun & Hstep).
    destruct (run_to_persisted _ _ _ _ _ _ Hrun) as (sts & Htr & Hg & _).
    destruct (book_step_cases _ _ _ _ _ _ Hstep)
      as [(e' & _ & N & _) | (wn & c & s & m & _ & E & _)]; [|discriminate].
    exists sts. split; [|assumption].
    now rewrite (net_step_persisted _ _ N).
  - pose proof (book_loop_total spec cfg _ (starting_state spec cfg w) w0
                  (Nat.le_refl _)) as Hf.
    rewrite E1 in Hf. now contradiction Hf.
Qed.

(** C7. Along a run that starts from a state whose chapter and summary
    lists have the same length, each state document written extends the
    one before it (the starting state at first) by exactly one chapter and
    one summary at the end of the lists, has at least as many words, and
    records its word count; so the two lists have the same length in
    every state document written.  The run itself always ends. *)
Theorem monotonic_state (spec : BookSpec) (cfg : Config) (w : World) :
  balanced (starting_state spec cfg w) ->
  fst (generate_one_book spec cfg w) <> OutOfFuel
  /\ exists sts,
      persisted (trace (snd (generate_one_book spec cfg w)))
      = (persisted (trace w) ++ sts)%list
      /\ grows spec (starting_state spec cfg w) sts
      /\ Forall balanced sts.
Proof.
  intro Hb. split; [apply generate_one_book_total|].
  destruct (generate_one_book spec cfg w) as [r w'] eqn:E.
  destruct (generate_one_book_persisted _ _ _ _ _ E) as (sts & Htr & Hg).
  exists sts. split; [exact Htr|]. split; [exact Hg|].
  eapply grows_balanced; eassumption.
Qed.

Lemma monotonic_state_witness :
  exists sts,
    persisted (trace (snd (generate_one_book Scenario.null_meridian
                             (Scenario.config 20 3)
                             (Scenario.initial_world
                                (Scenario.constant_service
                                   Scenario.short_chapter)))))
    = sts
    /\ List.length sts = 3
    /\ Forall balanced sts.
Proof.
  destruct (monotonic_state Scenario.null_meridian (Scenario.config 20 3)
              (Scenario.initial_world
                 (Scenario.constant_service Scenario.short_chapter)))
    as (_ & sts & Htr & _ & Hbal).
  { vm_compute. reflexivity. }
  exists sts. split; [exact Htr|]. split; [|exact Hbal].
  assert (E : sts
              = persisted
                  (trace (snd (generate_one_book Scenario.null_meridian
                                 (Scenario.config 20 3)
                                 (Scenario.initial_world
                                    (Scenario.constant_service
                                       Scenario.short_chapter))))))
    by (symmetry; exact Htr).
  rewrite E. vm_compute. reflexivity.
Defined.

(** ** Continuity fallback (C3) *)

Section Outage.

Variables (spec : BookSpec) (cfg : Config).

Lemma chapter_system_not_merge : chapter_system spec <> merge_system.
Proof. unfold chapter_system, merge_system. simpl. discriminate. Qed.

Lemma summarize_system_not_merge : summarize_system <> merge_system.
Proof. unfold summarize_system, merge_system. simpl. discriminate. Qed.

Lemma merge_always_fails_stable (w w' : World) :
  service w' = service w -> merge_always_fails w -> merge_always_fails w'.
Proof. intros E H n u p t Hp. rewrite E. now apply H. Qed.

Lemma others_succeed_stable (w w' : World) :
  service w' = service w -> others_succeed w -> others_succeed w'.
Proof. intros E H n u p t Hp. rewrite E. now apply H. Qed.

(** A call whose every attempt fails raises an [Exception]. *)
Lemma failing_call_raises (endpoint model system prompt : string)
    (timeout : Z) (temperature : Q) (seed : option Z) (w : World) :
  (forall i,
      fails (outcome_at (generate_url endpoint)
               (payload_of model system prompt temperature seed) timeout w i)) ->
  exists e w1,
    ollama_generate endpoint model system prompt timeout temperature seed
      default_retries w = (Raise e, w1)
    /\ is_exception e = true.
Proof.
  intro Hfail.
  destruct (ollama_generate_cases endpoint model system prompt timeout
              temperature seed w) as (k & r & E & _ & _ & Hlast).
  specialize (Hfail (k - 1)).
  destruct (outcome_at _ _ _ _ _) as [t|e|e]; simpl in Hfail.
  - contradiction.
  - destruct Hlast as [_ ->]. eauto.
  - subst r. eauto.
Qed.

(** A call whose first attempt succeeds returns its text. *)
Lemma answered_call_returns (endpoint model system prompt : string)
    (timeout : Z) (temperature : Q) (seed : option Z) (w : World) :
  others_succeed w -> system <> merge_system ->
  exists text w1,
    ollama_generate endpoint model system prompt timeout temperature seed
      default_retries w = (Ok text, w1)
    /\ service w1 = service w.
Proof.
  intros Hok Hsys.
  destruct (Hok (0 + posts w) (generate_url endpoint)
              (payload_of model system prompt temperature seed) timeout Hsys)
    as [text A].
  exists text. eexists. split.
  - apply ollama_generate_first. exact A.
  - reflexivity.
Qed.

(** Lines 435-446 when the merge call raises an [Exception]. *)
Lemma next_memory_fallback (story_memory chapter_summary : string)
    (chapter_summaries : list string) (w w1 : World) (e : Exc) :
  merge_memory (endpoint cfg) (model cfg) story_memory chapter_summary
    (timeout_sec cfg) (seed cfg) w = (Raise e, w1) ->
  is_exception e = true ->
  next_memory cfg story_memory chapter_summary chapter_summaries w
  = (Ok (fallback_memory chapter_summaries), w1).
Proof.
  intros E He. unfold next_memory, try_except.
  rewrite (bind_raise _ _ _ _ _ E), He. reflexivity.
Qed.

Lemma next_memory_under_outage (story_memory chapter_summary : string)
    (chapter_summaries : list string) (w : World) :
  merge_always_fails w ->
  exists w1,
    next_memory cfg story_memory chapter_summary chapter_summaries w
    = (Ok (fallback_memory chapter_summaries), w1)
    /\ service w1 = service w.
Proof.
  intro Hm.
  destruct (failing_call_raises (endpoint cfg) (model cfg) merge_system
              (merge_prompt story_memory chapter_summary) (timeout_sec cfg)
              (2 # 10) (seed cfg) w) as (e & w1 & E & He).
  { intro i. apply Hm. reflexivity. }
  exists w1. split.
  - now apply next_memory_fallback with (e := e).
  - destruct (ollama_generate_net _ _ _ _ _ _ _ _ _ _ E) as ([Hs _ _ _ _ _ _] & _).
    exact Hs.
Qed.

(** Under a merge outage every state an iteration persists carries the
    fallback memory. *)
Lemma book_step_under_outage (st st1 : State) (w w1 : World) :
  merge_always_fails w ->
  book_step spec cfg st w = (Ok st1, w1) ->
  st_memory st1 = fallback_memory (st_summaries st1)
  /\ service w1 = service w.
Proof.
  intros Hm H. unfold book_step in H.
  apply bind_cases in H as [(c & wa & E1 & H) | [(e & _ & E) | [_ E]]];
    [|discriminate|discriminate].
  destruct (produce_chapter_net _ _ _ _ _ _ _ E1) as ([S1 _ _ _ _ _ _] & _).
  apply bind_cases in H as [(s & wb & E2 & H) | [(e & _ & E) | [_ E]]];
    [|discriminate|discriminate].
  destruct (chapter_summary_net _ _ _ _ _ _ E2) as ([S2 _ _ _ _ _ _] & _).
  destruct (next_memory_under_outage (st_memory st) s
              (st_summaries st ++ [s]) wb) as (wc & E3 & S3).
  { apply merge_always_fails_stable with (w := w); [congruence | assumption]. }
  rewrite (bind_ok _ _ _ _ _ E3) in H.
  unfold bind, now_iso, write_state, write_book, ret in H.
  injection H as <- <-. split; [reflexivity|]. simpl. congruence.
Qed.

Lemma run_under_outage (st st' : State) (w w' : World) :
  run_to spec cfg st w st' w' ->
  merge_always_fails w ->
  exists sts,
    persisted (trace w') = (persisted (trace w) ++ sts)%list
    /\ Forall (fun s => st_memory s = fallback_memory (st_summaries s)) sts.
Proof.
  induction 1 as [st w | st w st1 w1 st2 w2 Hn Hstep Hrun IH]; intro Hm.
  - exists []. rewrite app_nil_r. auto.
  - destruct (book_step_under_outage _ _ _ _ Hm Hstep) as [Hmem Hsrv].
    destruct IH as (sts & Htr & Hall).
    { now apply merge_always_fails_stable with (w := w). }
    destruct (book_step_cases _ _ _ _ _ _ Hstep)
      as [(e & E & _) | (wn & c & s & m & N & E & ->)]; [discriminate|].
    injection E as E. exists (st1 :: sts). split.
    + rewrite Htr, persist_trace, persisted_app, (net_step_persisted _ _ N).
      rewrite <- E. simpl. now rewrite <- app_assoc.
    + constructor; assumption.
Qed.

(** With every other request answered, an iteration succeeds. *)
Lemma book_step_answered (st : State) (w : World) :
  merge_always_fails w -> others_succeed w ->
  exists st1 w1, book_step spec cfg st w = (Ok st1, w1).
Proof.
  intros Hm Ho. unfold book_step.
  assert (P : exists c wa,
             produce_chapter spec cfg (st_chapters st) (st_memory st) w
             = (Ok c, wa) /\ service wa = service w).
  { unfold produce_chapter, make_chapter_prompt.
    destruct (answered_call_returns (endpoint cfg) (model cfg)
                (chapter_system spec)
                (replace_N (str_of_nat (List.length (st_chapters st) + 1))
                   (chapter_prompt_template spec
                      (List.length (st_chapters st) + 1)
                      (select_goal (chapter_plans spec)
                         (List.length (st_chapters st) + 1))
                      (st_memory st) (target_chapter_words cfg)))
                (timeout_sec cfg) (75 # 100)%Q (seed cfg) w Ho
                chapter_system_not_merge) as (t1 & wa & E1 & S1).
    rewrite (bind_ok _ _ _ _ _ E1). cbv zeta.
    destruct (too_short _ _); [|unfold ret; eauto].
    destruct (answered_call_returns (endpoint cfg) (model cfg)
                (chapter_system spec)
                (replace_N (str_of_nat (List.length (st_chapters st) + 1))
                   (chapter_prompt_template spec
                      (List.length (st_chapters st) + 1)
                      (select_goal (chapter_plans spec)
                         (List.length (st_chapters st) + 1) ++ fuller_scenes)
                      (st_memory st) (Z.max (target_chapter_words cfg) 2000)))
                (timeout_sec cfg) (8 # 10)%Q (seed cfg) wa
                (others_succeed_stable _ _ S1 Ho)
                chapter_system_not_merge) as (t2 & wb & E2 & S2).
    rewrite (bind_ok _ _ _ _ _ E2). unfold ret.
    do 2 eexists. split; [reflexivity | congruence]. }
  destruct P as (c & wa & E1 & S1). rewrite (bind_ok _ _ _ _ _ E1).
  assert (Q : exists s wb,
             chapter_summary_of cfg (List.length (st_chapters st) + 1) c wa
             = (Ok s, wb) /\ service wb = service wa).
  { unfold chapter_summary_of, try_except, summarize_chapter.
    destruct (answered_call_returns (endpoint cfg) (model cfg)
                summarize_system (summarize_prompt c) (timeout_sec cfg)
                (2 # 10)%Q (seed cfg) wa
                (others_succeed_stable _ _ S1 Ho)
                summarize_system_not_merge) as (t & wb & E2 & S2).
    rewrite (bind_ok _ _ _ _ _ E2). unfold ret. eauto. }
  destruct Q as (s & wb & E2 & S2). rewrite (bind_ok _ _ _ _ _ E2).
  destruct (next_memory_under_outage (st_memory st) s
              (st_summaries st ++ [s]) wb) as (wc & E3 & S3).
  { apply merge_always_fails_stable with (w := w); [congruence | assumption]. }
  rewrite (bind_ok _ _ _ _ _ E3).
  unfold bind, now_iso, write_state, write_book, ret. eauto.
Qed.

Lemma book_loop_answered (fuel : nat) :
  forall st w,
    merge_always_fails w -> others_succeed w ->
    loop_budget cfg st <= fuel ->
    exists st' w', book_loop spec cfg fuel st w = (Ok st', w').
Proof.
  induction fuel as [|fuel IH]; intros st w Hm Ho Hb.
  - pose proof (book_loop_total spec cfg 0 st w Hb) as Hf.
    rewrite book_loop_unfold in *.
    destruct (needs_chapter spec cfg (st_chapters st)).
    + now contradiction Hf.
    + unfold ret. eauto.
  - pose proof (book_loop_total spec cfg (S fuel) st w Hb) as Hf.
    rewrite book_loop_unfold in *.
    destruct (needs_chapter spec cfg (st_chapters st)) eqn:Hn;
      [|unfold ret; eauto].
    destruct (book_step_answered st w Hm Ho) as (st1 & w1 & E1).
    rewrite (bind_ok _ _ _ _ _ E1) in *.
    destruct (book_step_under_outage _ _ _ _ Hm E1) as [_ S1].
    apply IH.
    + now apply merge_always_fails_stable with (w := w).
    + now apply others_succeed_stable with (w := w).
    + destruct (book_step_cases _ _ _ _ _ _ E1)
        as [(e & E & _) | (wn & c & s & m & _ & E & _)]; [discriminate|].
      injection E as ->.
      unfold needs_chapter in Hn. apply andb_prop in Hn as [_ Hn].
      apply Z.ltb_lt in Hn. unfold loop_budget in *. simpl.
      rewrite length_app. simpl. lia.
Qed.

End Outage.

(** C3, as amended.  When the merge call of a chapter raises an
    [Exception], the iteration still persists the chapter, and the story
    memory becomes the line ["Recent continuity notes:"] followed by the
    most recent summaries, five at most, joined by newlines.  When every
    merge request fails, each state document written by a run carries that
    memory; if every other request is answered, the run gets past its loop
    and ends with the manuscript path or the under-length failure. *)
Theorem continuity_fallback (spec : BookSpec) (cfg : Config) :
  (forall st w chapter w1 summary w2 e w3,
      produce_chapter spec cfg (st_chapters st) (st_memory st) w
      = (Ok chapter, w1) ->
      chapter_summary_of cfg (List.length (st_chapters st) + 1) chapter w1
      = (Ok summary, w2) ->
      merge_memory (endpoint cfg) (model cfg) (st_memory st) summary
        (timeout_sec cfg) (seed cfg) w2 = (Raise e, w3) ->
      is_exception e = true ->
      exists st' w',
        book_step spec cfg st w = (Ok st', w')
        /\ st_chapters st' = (st_chapters st ++ [chapter])%list
        /\ st_summaries st' = (st_summaries st ++ [summary])%list
        /\ st_memory st'
           = "Recent continuity notes:" ++ nl
             ++ join nl (lastn 5 (st_summaries st'))
        /\ f_state (files w' (output_dir cfg) (slug spec)) = Some st')
  /\ (forall w,
         merge_always_fails w ->
         exists sts,
           persisted (trace (snd (generate_one_book spec cfg w)))
           = (persisted (trace w) ++ sts)%list
           /\ Forall (fun st =>
                        st_memory st
                        = "Recent continuity notes:" ++ nl
                          ++ join nl (lastn 5 (st_summaries st))) sts)
  /\ (forall w,
         merge_always_fails w -> others_succeed w ->
         completed spec cfg (fst (generate_one_book spec cfg w))).
Proof.
  split; [|split].
  - intros st w c w1 s w2 e w3 E1 E2 E3 He.
    unfold book_step.
    rewrite (bind_ok _ _ _ _ _ E1), (bind_ok _ _ _ _ _ E2).
    rewrite (bind_ok _ _ _ _ _
               (next_memory_fallback cfg _ _ (st_summaries st ++ [s]) _ _ _ E3 He)).
    unfold bind, now_iso, write_state, write_book, ret.
    do 2 eexists. split; [reflexivity|].
    simpl. rewrite !String.eqb_refl. simpl. auto.
  - intros w Hm.
    destruct (generate_one_book spec cfg w) as [r w'] eqn:E.
    unfold generate_one_book in E.
    destruct (load_state_result spec cfg w)
      as (w0 & E0 & S0 & _ & _ & _ & T0 & _).
    rewrite (bind_ok _ _ _ _ _ E0) in E. simpl snd. rewrite <- T0.
    assert (Hm0 : merge_always_fails w0)
      by now apply merge_always_fails_stable with (w := w).
    apply bind_cases in E as [(st1 & w1 & E1 & H) | [(e & E1 & ->) | [E1 ->]]].
    + apply book_loop_result in E1 as [Hrun _].
      destruct (run_under_outage _ _ _ _ _ _ Hrun Hm0) as (sts & Htr & Hall).
      destruct (finalize_result spec cfg st1 w1) as (w2 & E2 & T2 & _).
      rewrite E2 in H. injection H as _ <-.
      exists sts. split; [|exact Hall].
      rewrite T2, persisted_app, Htr. simpl. now rewrite app_nil_r.
    + apply book_loop_result in E1 as (st1 & w1 & Hrun & Hstep).
      destruct (run_under_outage _ _ _ _ _ _ Hrun Hm0) as (sts & Htr & Hall).
      destruct (book_step_cases _ _ _ _ _ _ Hstep)
        as [(e' & _ & N & _) | (wn & c & s & m & _ & E & _)]; [|discriminate].
      exists sts. split; [|exact Hall].
      now rewrite (net_step_persisted _ _ N).
    + pose proof (book_loop_total spec cfg _ (starting_state spec cfg w) w0
                    (Nat.le_refl _)) as Hf.
      rewrite E1 in Hf. now contradiction Hf.
  - intros w Hm Ho.
    unfold generate_one_book.
    destruct (load_state_result spec cfg w) as (w0 & E0 & S0 & _).
    rewrite (bind_ok _ _ _ _ _ E0).
    destruct (book_loop_answered spec cfg
                (loop_budget cfg (starting_state spec cfg w))
                (starting_state spec cfg w) w0)
      as (st' & w' & E1); try apply Nat.le_refl.
    { now apply merge_always_fails_stable with (w := w). }
    { now apply others_succeed_stable with (w := w). }
    rewrite (bind_ok _ _ _ _ _ E1).
    destruct (finalize_result spec cfg st' w') as (w2 & E2 & _).
    rewrite E2. simpl fst.
    destruct (Z.of_nat _ <? min_words cfg)%Z; [right; eauto | left; reflexivity].
Qed.

Lemma merge_down_fails (text : string) :
  merge_always_fails
    (Scenario.initial_world (Scenario.merge_down_service text)).
Proof.
  intros n u p t Hp. simpl. unfold Scenario.merge_down_service.
  rewrite Hp, String.eqb_refl. exact I.
Qed.

Lemma merge_down_answers :
  others_succeed
    (Scenario.initial_world
       (Scenario.merge_down_service Scenario.short_chapter)).
Proof.
  intros n u p t Hp. simpl. unfold Scenario.merge_down_service.
  apply String.eqb_neq in Hp. rewrite Hp. eexists. reflexivity.
Qed.

Lemma continuity_fallback_witness :
  let spec := Scenario.null_meridian in
  let cfg := Scenario.config 20 3 in
  let w := Scenario.initial_world
             (Scenario.merge_down_service Scenario.short_chapter) in
  completed spec cfg (fst (generate_one_book spec cfg w))
  /\ (exists sts,
         persisted (trace (snd (generate_one_book spec cfg w))) = sts
         /\ Forall (fun st =>
                      st_memory st
                      = "Recent continuity notes:" ++ nl
                        ++ join nl (lastn 5 (st_summaries st))) sts)
  /\ exists st' w',
      book_step spec cfg (fresh_state spec "T0") w = (Ok st', w')
      /\ st_summaries st' = [Scenario.short_chapter]
      /\ st_memory st'
         = "Recent continuity notes:" ++ nl
           ++ join nl (lastn 5 (st_summaries st')).
Proof.
  cbv zeta. split; [|split].
  - exact (proj2 (proj2 (continuity_fallback Scenario.null_meridian
                           (Scenario.config 20 3))) _
             (merge_down_fails _) merge_down_answers).
  - exact (proj1 (proj2 (continuity_fallback Scenario.null_meridian
                           (Scenario.config 20 3))) _
             (merge_down_fails _)).
  - pose (spec := Scenario.null_meridian).
    pose (cfg := Scenario.config 20 3).
    pose (w := Scenario.initial_world
                 (Scenario.merge_down_service Scenario.short_chapter)).
    pose (st := fresh_state spec "T0").
    pose (p1 := produce_chapter spec cfg (st_chapters st) (st_memory st) w).
    pose (p2 := chapter_summary_of cfg 1 Scenario.short_chapter (snd p1)).
    pose (p3 := merge_memory (endpoint cfg) (model cfg) (st_memory st)
                  Scenario.short_chapter (timeout_sec cfg) (seed cfg) (snd p2)).
    destruct (proj1 (continuity_fallback spec cfg) st w
                Scenario.short_chapter (snd p1)
                Scenario.short_chapter (snd p2)
                (generation_failed 3 (MkExc URLError "connection refused" None))
                (snd p3))
      as (st' & w' & E & _ & Hs & Hm & _).
    + vm_compute. reflexivity.
    + vm_compute. reflexivity.
    + vm_compute. reflexivity.
    + reflexivity.
    + exists st', w'. split; [exact E|]. split; [exact Hs | exact Hm].
Defined.

(** C3 as stated fails: after the first chapter of a run whose merge
    requests all fail, the story memory is not the concatenation of the
    chapter summaries; it starts with a header line. *)
Lemma continuity_fallback_counterexample :
  let spec := Scenario.null_meridian in
  let cfg := Scenario.config 5 3 in
  let w := Scenario.initial_world
             (Scenario.merge_down_service Scenario.short_chapter) in
  merge_always_fails w
  /\ exists st,
      f_state (files (snd (generate_one_book spec cfg w))
                 (output_dir cfg) (slug spec)) = Some st
      /\ st_summaries st = [Scenario.short_chapter]
      /\ st_memory st
         = "Recent continuity notes:" ++ nl ++ Scenario.short_chapter
      /\ st_memory st <> String.concat "" (lastn 5 (st_summaries st)).
Proof.
  cbv zeta. split; [apply merge_down_fails|].
  eexists. split; [vm_compute; reflexivity|].
  split; [reflexivity|]. split; [reflexivity|].
  vm_compute. discriminate.
Qed.

(** ** Idempotent resume (C2) *)

Section Rerun.

Variables (spec : BookSpec) (cfg : Config).

Lemma under_length_is_caught (total : nat) :
  ~ escapes_transport (under_length spec cfg total).
Proof. intros [H | H]; [discriminate H | now apply H]. Qed.

Lemma book_loop_raises_transport (fuel : nat) (st : State) (w w' : World)
    (e : Exc) :
  book_loop spec cfg fuel st w = (Raise e, w') -> escapes_transport e.
Proof.
  intro H. apply book_loop_result in H as (st1 & w1 & _ & Hstep).
  destruct (book_step_cases _ _ _ _ _ _ Hstep)
    as [(e' & E & _ & He) | (wn & c & s & m & _ & E & _)]; [|discriminate].
  now injection E as <-.
Qed.

(** A run whose starting state needs no chapter only writes the metadata
    document. *)
Lemma settled_run (w : World) :
  needs_chapter spec cfg (st_chapters (starting_state spec cfg w)) = false ->
  exists w0 w',
    load_state spec cfg w = (Ok (starting_state spec cfg w), w0)
    /\ generate_one_book spec cfg w
       = finalize spec cfg (starting_state spec cfg w) w0
    /\ finalize spec cfg (starting_state spec cfg w) w0
       = (fst (finalize spec cfg (starting_state spec cfg w) w0), w')
    /\ files w0 = files w /\ trace w0 = trace w /\ posts w0 = posts w.
Proof.
  intro Hn.
  destruct (load_state_result spec cfg w)
    as (w0 & E0 & _ & _ & _ & F0 & T0 & P0 & _).
  exists w0, (snd (finalize spec cfg (starting_state spec cfg w) w0)).
  split; [exact E0|]. split.
  - unfold generate_one_book. rewrite (bind_ok _ _ _ _ _ E0).
    unfold bind at 1. rewrite book_loop_unfold, Hn. reflexivity.
  - split; [apply surjective_pairing | auto].
Qed.

(** A run that got past its loop leaves a durable state that needs no
    chapter, with the chapters and summaries its metadata was built
    from. *)
Lemma completed_run_settles (w : World) :
  completed spec cfg (fst (generate_one_book spec cfg w)) ->
  exists st wl,
    generate_one_book spec cfg w = finalize spec cfg st wl
    /\ needs_chapter spec cfg (st_chapters st) = false
    /\ st_chapters (starting_state spec cfg (snd (generate_one_book spec cfg w)))
       = st_chapters st
    /\ st_summaries (starting_state spec cfg (snd (generate_one_book spec cfg w)))
       = st_summaries st.
Proof.
  intro Hc. unfold generate_one_book in *.
  destruct (load_state_result spec cfg w)
    as (w0 & E0 & _ & _ & _ & F0 & _).
  rewrite (bind_ok _ _ _ _ _ E0) in *.
  unfold bind in *.
  destruct (book_loop spec cfg (loop_budget cfg (starting_state spec cfg w))
              (starting_state spec cfg w) w0) as [[st|e|] wl] eqn:E1.
  - exists st, wl. split; [reflexivity|].
    pose proof (book_loop_result _ _ _ _ _ _ _ E1) as [Hrun Hdone].
    split; [exact Hdone|].
    destruct (finalize_result spec cfg st wl) as (w2 & E2 & _ & F2 & _).
    rewrite E2. simpl snd. unfold starting_state. rewrite F2. simpl.
    destruct (run_to_state_file _ _ _ _ _ _ Hrun) as [[-> ->] | ->];
      [|split; reflexivity].
    rewrite F0. unfold starting_state.
    destruct (f_state (files w (output_dir cfg) (slug spec)));
      split; reflexivity.
  - simpl in Hc. destruct Hc as [Hc | [total Hc]]; [discriminate|].
    injection Hc as ->.
    apply book_loop_raises_transport in E1.
    now apply under_length_is_caught in E1.
  - simpl in Hc. destruct Hc as [Hc | [total Hc]]; discriminate.
Qed.

End Rerun.

(** C2, as amended.  Running the controller again after a run that got
    past its loop issues no request and writes nothing but the metadata
    document: the state file and the manuscript file are untouched, the
    result is the same, and the new metadata document agrees with the
    earlier one on every entry except [generated_at]. *)
Theorem rerun_is_noop (spec : BookSpec) (cfg : Config) (w : World) :
  completed spec cfg (fst (generate_one_book spec cfg w)) ->
  let first := generate_one_book spec cfg w in
  let second := generate_one_book spec cfg (snd first) in
  fst second = fst first
  /\ posts (snd second) = posts (snd first)
  /\ post_count (trace (snd second)) = post_count (trace (snd first))
  /\ (exists meta,
         trace (snd second)
         = (trace (snd first)
              ++ [EvWriteMeta (output_dir cfg) (slug spec) meta])%list)
  /\ f_state (files (snd second) (output_dir cfg) (slug spec))
     = f_state (files (snd first) (output_dir cfg) (slug spec))
  /\ f_book (files (snd second) (output_dir cfg) (slug spec))
     = f_book (files (snd first) (output_dir cfg) (slug spec))
  /\ exists m1 m2,
      f_meta (files (snd first) (output_dir cfg) (slug spec)) = Some m1
      /\ f_meta (files (snd second) (output_dir cfg) (slug spec)) = Some m2
      /\ same_but_timestamp m1 m2.
Proof.
  intro Hc. cbv zeta.
  destruct (completed_run_settles spec cfg w Hc)
    as (st & wl & E1 & Hdone & Hch & Hsum).
  destruct (finalize_result spec cfg st wl) as (wa & Ea & Ta & Fa & Pa & _).
  cbv zeta in Ea, Ta, Fa.
  rewrite E1, Ea in Hch, Hsum |- *. simpl fst in *. simpl snd in *.
  destruct (settled_run spec cfg wa) as (w0 & w2 & _ & E2 & _ & F0 & T0 & P0).
  { now rewrite Hch. }
  destruct (finalize_result spec cfg (starting_state spec cfg wa) w0)
    as (wb & Eb & Tb & Fb & Pb & _).
  cbv zeta in Eb, Tb, Fb.
  rewrite E2, Eb. simpl fst. simpl snd.
  rewrite Hch.
  split; [reflexivity|].
  split; [now rewrite Pb, P0|].
  split; [rewrite Tb, T0; unfold post_count;
          rewrite filter_app, length_app; simpl; lia|].
  split; [eexists; now rewrite Tb, T0|].
  rewrite Fb, F0, Fa. simpl.
  split; [reflexivity|]. split; [reflexivity|].
  do 2 eexists. split; [reflexivity|]. split; [reflexivity|].
  unfold same_but_timestamp, make_metadata. simpl.
  rewrite Hch, Hsum. repeat split; reflexivity.
Qed.

Lemma rerun_is_noop_witness :
  posts (snd (generate_one_book Scenario.null_meridian (Scenario.config 5 3)
                (snd (generate_one_book Scenario.null_meridian
                        (Scenario.config 5 3)
                        (Scenario.initial_world
                           (Scenario.constant_service
                              Scenario.short_chapter))))))
  = 4.
Proof.
  rewrite (proj1 (proj2 (rerun_is_noop Scenario.null_meridian
                           (Scenario.config 5 3)
                           (Scenario.initial_world
                              (Scenario.constant_service
                                 Scenario.short_chapter))
                           ltac:(left; vm_compute; reflexivity)))).
  vm_compute. reflexivity.
Defined.

(** C2 as stated fails: the second run writes a metadata document that
    differs from the first one, in its [generated_at] entry. *)
Lemma rerun_is_noop_counterexample :
  exists m1 m2,
    f_meta (files (snd (generate_one_book Scenario.null_meridian
                          (Scenario.config 5 3)
                          (Scenario.initial_world
                             (Scenario.constant_service
                                Scenario.short_chapter))))
              "/books" "null_meridian") = Some m1
    /\ f_meta (files (snd (generate_one_book Scenario.null_meridian
                             (Scenario.config 5 3)
                             (snd (generate_one_book Scenario.null_meridian
                                     (Scenario.config 5 3)
                                     (Scenario.initial_world
                                        (Scenario.constant_service
                                           Scenario.short_chapter))))))
                 "/books" "null_meridian") = Some m2
    /\ m_generated_at m1 = "T2"
    /\ m_generated_at m2 = "T3"
    /\ m1 <> m2.
Proof.
  do 2 eexists.
  split; [vm_compute; reflexivity|].
  split; [vm_compute; reflexivity|].
  split; [reflexivity|]. split; [reflexivity|].
  intro H. apply (f_equal m_generated_at) in H. vm_compute in H. discriminate.
Qed.

(** ** Loop termination (C1) *)

Section Stub.

Variables (spec : BookSpec) (cfg : Config) (text : string).

Hypothesis Hwords : count_words text = 1500.
Hypothesis Hmarker : startswith "chapter " (lower (strip text)) = true.

Lemma stub_not_blank : strip text <> EmptyString.
Proof. apply words_not_blank. rewrite Hwords. lia. Qed.

Lemma stub_call (endpoint model system prompt : string) (timeout : Z)
    (temperature : Q) (seed : option Z) (w : World) :
  always_answers w text ->
  exists w1,
    ollama_generate endpoint model system prompt timeout temperature seed
      default_retries w = (Ok (strip text), w1)
    /\ net_step w w1.
Proof.
  intro Hs. eexists. split.
  - apply ollama_generate_first. unfold outcome_at. rewrite Hs. simpl.
    destruct (String.eqb_spec (strip text) EmptyString) as [E|_];
      [now apply stub_not_blank in E | reflexivity].
  - apply net_step_after_attempts.
Qed.

Lemma always_answers_stable (w w' : World) :
  service w' = service w -> always_answers w text -> always_answers w' text.
Proof. intros E H n u p t. rewrite E. apply H. Qed.

Lemma stub_produce (chapters : list string) (story_memory : string) (w : World) :
  always_answers w text ->
  exists w1,
    produce_chapter spec cfg chapters story_memory w = (Ok (strip text), w1)
    /\ net_step w w1.
Proof.
  intro Hs. unfold produce_chapter, make_chapter_prompt.
  destruct (stub_call (endpoint cfg) (model cfg) (chapter_system spec)
              (replace_N (str_of_nat (List.length chapters + 1))
                 (chapter_prompt_template spec (List.length chapters + 1)
                    (select_goal (chapter_plans spec) (List.length chapters + 1))
                    story_memory (target_chapter_words cfg)))
              (timeout_sec cfg) (75 # 100)%Q (seed cfg) w Hs)
    as (w1 & E1 & N1).
  rewrite (bind_ok _ _ _ _ _ E1). cbv zeta.
  unfold with_marker. rewrite strip_idempotent, Hmarker.
  destruct (too_short _ _); [|unfold ret; eauto].
  destruct (stub_call (endpoint cfg) (model cfg) (chapter_system spec)
              (replace_N (str_of_nat (List.length chapters + 1))
                 (chapter_prompt_template spec (List.length chapters + 1)
                    (select_goal (chapter_plans spec) (List.length chapters + 1)
                       ++ fuller_scenes)
                    story_memory (Z.max (target_chapter_words cfg) 2000)))
              (timeout_sec cfg) (8 # 10)%Q (seed cfg) w1)
    as (w2 & E2 & N2).
  { apply always_answers_stable with (w := w); [apply N1 | assumption]. }
  rewrite (bind_ok _ _ _ _ _ E2). unfold ret. rewrite strip_idempotent.
  exists w2. split; [reflexivity | eapply net_step_trans; eassumption].
Qed.

(** One iteration against the stub: the chapter, its summary and the new
    memory are all the stub's text. *)
Lemma stub_step (st : State) (w : World) :
  always_answers w text ->
  exists wn,
    net_step w wn
    /\ book_step spec cfg st w
       = (Ok (updated_state spec st
                (st_chapters st ++ [strip text])
                (st_summaries st ++ [strip text])
                (strip text) (clock wn (ticks wn))),
          after_persist spec cfg wn
            (updated_state spec st
               (st_chapters st ++ [strip text])
               (st_summaries st ++ [strip text])
               (strip text) (clock wn (ticks wn)))).
Proof.
  intro Hs. unfold book_step.
  destruct (stub_produce (st_chapters st) (st_memory st) w Hs) as (w1 & E1 & N1).
  rewrite (bind_ok _ _ _ _ _ E1).
  assert (Hs1 : always_answers w1 text)
    by (apply always_answers_stable with (w := w); [apply N1 | assumption]).
  destruct (stub_call (endpoint cfg) (model cfg) summarize_system
              (summarize_prompt (strip text)) (timeout_sec cfg) (2 # 10)%Q
              (seed cfg) w1 Hs1) as (w2 & E2 & N2).
  assert (Hs2 : always_answers w2 text)
    by (apply always_answers_stable with (w := w1); [apply N2 | assumption]).
  assert (E2' : chapter_summary_of cfg (List.length (st_chapters st) + 1)
                  (strip text) w1 = (Ok (strip text), w2)).
  { unfold chapter_summary_of, try_except, summarize_chapter.
    rewrite (bind_ok _ _ _ _ _ E2). unfold ret. now rewrite strip_idempotent. }
  rewrite (bind_ok _ _ _ _ _ E2').
  destruct (stub_call (endpoint cfg) (model cfg) merge_system
              (merge_prompt (st_memory st) (strip text)) (timeout_sec cfg)
              (2 # 10)%Q (seed cfg) w2 Hs2) as (w3 & E3 & N3).
  assert (E3' : next_memory cfg (st_memory st) (strip text)
                  (st_summaries st ++ [strip text]) w2 = (Ok (strip text), w3)).
  { unfold next_memory, try_except, merge_memory.
    rewrite (bind_ok _ _ _ _ _ E3). unfold ret. now rewrite strip_idempotent. }
  rewrite (bind_ok _ _ _ _ _ E3').
  exists w3. split.
  - eapply net_step_trans; [|eassumption]. eapply net_step_trans; eassumption.
  - reflexivity.
Qed.

Hypothesis Hmin : min_words cfg = 5000%Z.
Hypothesis Hmax : max_chapters cfg = 3%Z.
Hypothesis Htitle : count_words (title spec) < 500.

Lemma stub_words_Z : Z.of_nat (count_words text) = 1500%Z.
Proof. rewrite Hwords. reflexivity. Qed.

Lemma stub_title_Z : (Z.of_nat (count_words (title spec)) < 500)%Z.
Proof. apply Nat2Z.inj_lt in Htitle. exact Htitle. Qed.

Lemma stub_sized_sum (chapters : list string) :
  stub_sized text chapters ->
  list_sum (map count_words chapters)
  = List.length chapters * count_words text.
Proof.
  induction 1 as [|c l Hc _ IH]; simpl; [reflexivity|].
  rewrite Hc, IH. reflexivity.
Qed.

Lemma stub_sized_snoc (chapters : list string) :
  stub_sized text chapters -> stub_sized text (chapters ++ [strip text]).
Proof.
  intro H. apply Forall_app. split; [assumption|].
  constructor; [apply count_words_strip | constructor].
Qed.

Lemma stub_needs_chapter (chapters : list string) :
  stub_sized text chapters ->
  needs_chapter spec cfg chapters = (List.length chapters <? 3)%nat.
Proof.
  intro Hall. unfold needs_chapter.
  rewrite manuscript_words, Hmin, Hmax, (stub_sized_sum _ Hall).
  rewrite Nat2Z.inj_add, Nat2Z.inj_mul, stub_words_Z.
  pose proof stub_title_Z as Ht. clear Hwords Htitle Hall.
  destruct (Nat.ltb_spec (List.length chapters) 3) as [Hlt | Hge].
  - apply andb_true_intro. split; apply Z.ltb_lt; lia.
  - apply andb_false_intro2. apply Z.ltb_ge. lia.
Qed.

(** The loop against the stub: [k] iterations take a state with [3 - k]
    chapters to one with three. *)
Lemma stub_loop (k : nat) :
  forall st w,
    always_answers w text ->
    stub_sized text (st_chapters st) ->
    List.length (st_chapters st) + k = 3 ->
    exists st' w',
      book_loop spec cfg k st w = (Ok st', w')
      /\ List.length (st_chapters st') = 3
      /\ stub_sized text (st_chapters st')
      /\ (k = 0 \/ f_state (files w' (output_dir cfg) (slug spec)) = Some st')
      /\ List.length (persisted (trace w'))
         = List.length (persisted (trace w)) + k.
Proof.
  pose proof stub_needs_chapter as Hneeds.
  pose proof stub_step as Hstep.
  clear Hwords Htitle.
  induction k as [|k IH]; intros st w Hs Hall Hlen;
    rewrite book_loop_unfold, (Hneeds _ Hall).
  - assert (E : (List.length (st_chapters st) <? 3)%nat = false)
      by (apply Nat.ltb_ge; lia).
    rewrite E. exists st, w. unfold ret.
    repeat split; auto; lia.
  - assert (E : (List.length (st_chapters st) <? 3)%nat = true)
      by (apply Nat.ltb_lt; lia).
    rewrite E.
    destruct (Hstep st w Hs) as (wn & N & Estep).
    rewrite (bind_ok _ _ _ _ _ Estep).
    set (st1 := updated_state _ _ _ _ _ _) in *.
    assert (Hall1 : stub_sized text (st_chapters st1))
      by (apply stub_sized_snoc; assumption).
    assert (Hlen1 : List.length (st_chapters st1) + k = 3)
      by (simpl; rewrite length_app; simpl; lia).
    destruct (IH st1 (after_persist spec cfg wn st1))
      as (st' & w' & Eloop & Hlen' & Hall' & Hfile & Htr);
      [|assumption|assumption|].
    { apply always_answers_stable with (w := w); [|assumption].
      change (service (after_persist spec cfg wn st1)) with (service wn).
      apply N. }
    exists st', w'. split; [exact Eloop|]. split; [exact Hlen'|].
    split; [exact Hall'|]. split.
    + right. destruct Hfile as [-> | Hfile]; [|exact Hfile].
      rewrite book_loop_unfold, (Hneeds _ Hall1) in Eloop.
      replace (List.length (st_chapters st1) <? 3)%nat with false in Eloop
        by (symmetry; apply Nat.ltb_ge; lia).
      injection Eloop as <- <-. rewrite persist_files. reflexivity.
    + rewrite Htr, persist_trace, persisted_app,
        (net_step_persisted _ _ N), length_app. simpl. lia.
Qed.

(** Three chapters of the stub and the title. *)
Lemma stub_total (chapters : list string) :
  stub_sized text chapters -> List.length chapters = 3 ->
  count_words (manuscript_text (title spec) chapters)
  = count_words (title spec) + 4500.
Proof.
  intros Hall Hlen.
  rewrite manuscript_words, (stub_sized_sum _ Hall), Hlen, Hwords.
  reflexivity.
Qed.

Lemma stub_total_short (total : nat) :
  total = count_words (title spec) + 4500 ->
  (Z.of_nat total <? min_words cfg)%Z = true.
Proof.
  intros ->. rewrite Hmin, Nat2Z.inj_add.
  change (Z.of_nat 4500) with 4500%Z.
  pose proof stub_title_Z as Ht. clear Hwords Htitle.
  apply Z.ltb_lt. lia.
Qed.

End Stub.

(** C1, as amended.  With a service stub that always returns the same
    1500-word chapter text opening with the chapter marker,
    [min_words = 5000], [max_chapters = 3], no state file and a title of
    fewer than 500 words, the run produces exactly three chapters, writes
    the metadata document with [chapters = 3] and
    [total_words = 4500 + count_words(title)], and raises the under-length
    failure. *)
Theorem cap_reached_under_length (spec : BookSpec) (cfg : Config)
    (text : string) (w : World) :
  always_answers w text ->
  count_words text = 1500 ->
  startswith "chapter " (lower (strip text)) = true ->
  f_state (files w (output_dir cfg) (slug spec)) = None ->
  min_words cfg = 5000%Z ->
  max_chapters cfg = 3%Z ->
  count_words (title spec) < 500 ->
  exists w' meta st,
    generate_one_book spec cfg w
    = (Raise (under_length spec cfg (count_words (title spec) + 4500)), w')
    /\ f_meta (files w' (output_dir cfg) (slug spec)) = Some meta
    /\ m_chapters meta = 3
    /\ m_total_words meta = count_words (title spec) + 4500
    /\ f_state (files w' (output_dir cfg) (slug spec)) = Some st
    /\ List.length (st_chapters st) = 3
    /\ List.length (persisted (trace w'))
       = List.length (persisted (trace w)) + 3.
Proof.
  intros Hs Hwords Hmarker Hnone Hmin Hmax Htitle.
  unfold generate_one_book.
  destruct (load_state_result spec cfg w)
    as (w0 & E0 & S0 & _ & _ & _ & T0 & _).
  rewrite (bind_ok _ _ _ _ _ E0).
  unfold starting_state. rewrite Hnone.
  assert (Hb : loop_budget cfg (fresh_state spec (clock w (ticks w))) = 3)
    by (unfold loop_budget; rewrite Hmax; reflexivity).
  rewrite Hb.
  destruct (stub_loop spec cfg text Hwords Hmarker Hmin Hmax Htitle 3
              (fresh_state spec (clock w (ticks w))) w0)
    as (st & wl & Eloop & Hlen & Hall & Hfile & Htr).
  { now apply always_answers_stable with (w := w). }
  { constructor. }
  { reflexivity. }
  rewrite (bind_ok _ _ _ _ _ Eloop).
  destruct Hfile as [Hk | Hfile]; [discriminate|].
  destruct (finalize_result spec cfg st wl) as (w2 & E2 & T2 & F2 & _).
  cbv zeta in E2, T2, F2.
  pose proof (stub_total spec text Hwords _ Hall Hlen) as Htotal.
  rewrite Htotal in E2.
  rewrite (stub_total_short spec cfg Hmin Htitle _ eq_refl) in E2.
  exists w2. do 2 eexists. split; [exact E2|].
  rewrite F2. simpl. split; [reflexivity|].
  split; [exact Hlen|]. split; [exact Htotal|].
  split; [exact Hfile|]. split; [exact Hlen|].
  rewrite T2, persisted_app, length_app, Htr, T0. simpl.
  clear. lia.
Qed.

Lemma cap_reached_under_length_witness :
  exists w' meta,
    generate_one_book Scenario.null_meridian (Scenario.config 5000 3)
      (Scenario.initial_world (Scenario.constant_service Scenario.chapter_1500))
    = (Raise (under_length Scenario.null_meridian (Scenario.config 5000 3) 4502),
       w')
    /\ f_meta (files w' "/books" "null_meridian") = Some meta
    /\ m_chapters meta = 3
    /\ m_total_words meta = 4502.
Proof.
  destruct (cap_reached_under_length Scenario.null_meridian
              (Scenario.config 5000 3) Scenario.chapter_1500
              (Scenario.initial_world
                 (Scenario.constant_service Scenario.chapter_1500)))
    as (w' & meta & st & E & F & Hch & Htot & _).
  - intros n u p t. reflexivity.
  - vm_compute. reflexivity.
  - vm_compute. reflexivity.
  - reflexivity.
  - reflexivity.
  - reflexivity.
  - vm_compute. lia.
  - exists w', meta. split; [exact E|]. split; [exact F|].
    split; [exact Hch | exact Htot].
Defined.

(** C1 as stated fails: with the title "Null Meridian" the metadata of
    the run records 4502 words, not 4500: the two words of the title line
    are counted. *)
Lemma cap_reached_counterexample :
  count_words Scenario.chapter_1500 = 1500
  /\ exists meta,
      f_meta (files
                (snd (generate_one_book Scenario.null_meridian
                        (Scenario.config 5000 3)
                        (Scenario.initial_world
                           (Scenario.constant_service Scenario.chapter_1500))))
                "/books" "null_meridian") = Some meta
      /\ m_chapters meta = 3
      /\ m_total_words meta = 4502
      /\ m_total_words meta <> 4500.
Proof.
  split; [vm_compute; reflexivity|].
  eexists. split; [vm_compute; reflexivity|].
  split; [reflexivity|]. split; [reflexivity|]. discriminate.
Qed.
